(** * NEWS-AI-BACKEND: the enrichment consumer and the veracity scorer

    A shallow embedding of [app/services/factcheck.py] and
    [app/services/ai_consumer.py], with the tables of [app/db/models.py]
    they write to, and the properties of the enrichment pipeline proved
    over it. *)

From Stdlib Require Import ZArith Ascii String.
From stdpp Require Import base option list gmap strings.

Local Open Scope Z_scope.

(** ** Python values and primitives

    Python [str] values are modelled as [string]: the characters are the
    ASCII range, and [lower] is [str.lower] on that range. *)

Module Py.

Definition lower_char (c : ascii) : ascii :=
  let n := nat_of_ascii c in
  if (65 <=? n)%nat && (n <=? 90)%nat then ascii_of_nat (n + 32) else c.

(** [s.lower()] *)
Fixpoint lower (s : string) : string :=
  match s with
  | EmptyString => EmptyString
  | String c s' => String (lower_char c) (lower s')
  end.

(** [s.startswith(word)] *)
Fixpoint startswith (word s : string) : bool :=
  match word, s with
  | EmptyString, _ => true
  | String _ _, EmptyString => false
  | String a word', String b s' =>
      if decide (a = b) then startswith word' s' else false
  end.

(** [word in s] on strings: [word] occurs in [s] as a substring. *)
Fixpoint contains (word s : string) : bool :=
  startswith word s ||
  match s with
  | EmptyString => false
  | String _ s' => contains word s'
  end.

(** [any(word in s for word in words)] *)
Definition any_in (words : list string) (s : string) : bool :=
  existsb (fun word => contains word s) words.

(** [s[:n]] *)
Fixpoint slice_to (n : nat) (s : string) : string :=
  match n, s with
  | O, _ => EmptyString
  | S _, EmptyString => EmptyString
  | S n', String c s' => String c (slice_to n' s')
  end.

Arguments slice_to !n !s /.

(** [s.split(sep)] for a one-character separator: the pieces between
    the occurrences of [sep], in order. *)
Fixpoint split (sep : ascii) (s : string) : list string :=
  match s with
  | EmptyString => [EmptyString]
  | String c s' =>
      if decide (c = sep) then EmptyString :: split sep s'
      else match split sep s' with
           | [] => [String c EmptyString]
           | piece :: pieces => String c piece :: pieces
           end
  end.

(** Truth value of a string: [bool(s)]. *)
Definition truthy (s : string) : bool :=
  match s with EmptyString => false | String _ _ => true end.

(** Truth value of an optional string ([None] is falsy). *)
Definition truthy_opt (o : option string) : bool :=
  match o with None => false | Some s => truthy s end.

(** [round(a / b)] for integers [0 <= a], [0 < b]: the quotient rounded
    to the nearest integer, a tie going to the even neighbour.  The
    quotients formed by the scorer ([a <= 500], [b <= 5]) are either
    exact in binary floating point or thirds, so the float detour of
    the source does not change the result. *)
Definition round_div (a b : Z) : Z :=
  let q := a / b in
  let r := a mod b in
  if 2 * r <? b then q
  else if b <? 2 * r then q + 1
  else if Z.even q then q else q + 1.

(** A value decoded by [json.loads].  [JObj] holds the items of the
    resulting [dict]. *)
#[warnings="-register-all"] Inductive json : Type :=
| JNull
| JBool (b : bool)
| JNum (n : Z)
| JStr (s : string)
| JArr (items : list json)
| JObj (fields : list (string * json)).

(** [bool(v)] *)
Definition json_truthy (v : json) : bool :=
  match v with
  | JNull => false
  | JBool b => b
  | JNum n => negb (n =? 0)
  | JStr s => truthy s
  | JArr items => match items with [] => false | _ => true end
  | JObj fields => match fields with [] => false | _ => true end
  end.

(** [d.get(key)] on the items of a dict *)
Fixpoint dict_get (fields : list (string * json)) (key : string) : option json :=
  match fields with
  | [] => None
  | (k, v) :: rest => if decide (k = key) then Some v else dict_get rest key
  end.

(** An exception object; all the ones that occur are instances of
    [Exception]. *)
Inductive exn : Type := Exception (msg : string).

(** What a call yields: a value, or an exception that propagates. *)
Inductive outcome (A : Type) : Type :=
| Returned (a : A)
| Raised (e : exn).
Arguments Returned {A} a.
Arguments Raised {A} e.

(** [try: body  except Exception as e: handler(e)] *)
Definition try_except {A} (body : outcome A) (handler : exn -> outcome A) : outcome A :=
  match body with
  | Returned a => Returned a
  | Raised e => handler e
  end.

End Py.

Import Py.

(** ** The veracity scorer ([app/services/factcheck.py]) *)

(** The JSON document the claim-search API answers with; an absent key
    is [None]. *)
Module Api.

Record publisher : Type := { name : option string }.

Record review : Type := {
  textualRating : option string;
  publisher_of : option publisher;
  url : option string
}.

Record claim : Type := {
  text : option string;
  claimant : option string;
  claimReview : list review
}.

Record response : Type := { claims : option (list claim) }.

(** The empty dict [{}] standing in for a missing review. *)
Definition no_review : review :=
  {| textualRating := None; publisher_of := None; url := None |}.

End Api.

(** One entry of [processed_claims]. *)
Record processed_claim : Type := {
  claim_text : string;
  claimant : string;
  rating : string;
  score : option Z;
  publisher : string;
  review_url : string
}.

(** The dict [check_claim] returns.  [status] is [None] for the dict the
    consumer substitutes for a failed check, which has no such key. *)
Record veracity : Type := {
  veracity_score : option Z;
  claims : list processed_claim;
  status : option string
}.

#[export] Instance processed_claim_eq_dec : EqDecision processed_claim.
Proof. solve_decision. Defined.

(** [FactCheckService._rating_to_score] *)
Definition _rating_to_score (rating : string) : option Z :=
  let rating_lower := lower rating in
  (* True/Accurate ratings *)
  if any_in ["true"; "accurate"; "correct"; "verified"] rating_lower
  then Some 100
  (* Mostly true *)
  else if any_in ["mostly true"; "mostly accurate"; "largely true"] rating_lower
  then Some 80
  (* Mixed/Half true *)
  else if any_in ["half true"; "mixed"; "partly"; "partially"] rating_lower
  then Some 50
  (* Mostly false *)
  else if any_in ["mostly false"; "mostly inaccurate"; "largely false"] rating_lower
  then Some 20
  (* False/Fake *)
  else if any_in ["false"; "fake"; "incorrect"; "wrong"; "pants on fire"] rating_lower
  then Some 0
  (* Unverifiable/Unrated *)
  else if any_in ["unverifiable"; "unrated"; "satire"] rating_lower
  then None
  else None.

(** The loop state of [_process_response]. *)
Record scoring : Type := {
  processed_claims : list processed_claim;
  total_score : Z;
  scored_count : Z
}.

(** The body of [for claim in claims[:5]] in [_process_response]. *)
Definition process_claim (acc : scoring) (claim : Api.claim) : scoring :=
  let claim_review :=
    match Api.claimReview claim with
    | [] => Api.no_review
    | first :: _ => first
    end in
  let rating := default "" (Api.textualRating claim_review) in
  let publisher :=
    match Api.publisher_of claim_review with
    | None => "Unknown"
    | Some p => default "Unknown" (Api.name p)
    end in
  let url := default "" (Api.url claim_review) in
  let score := _rating_to_score rating in
  let '(total, count) :=
    match score with
    | Some s => (total_score acc + s, scored_count acc + 1)
    | None => (total_score acc, scored_count acc)
    end in
  {| processed_claims :=
       processed_claims acc ++
       [ {| claim_text := default "" (Api.text claim);
            claimant := default "Unknown" (Api.claimant claim);
            rating := rating;
            score := score;
            publisher := publisher;
            review_url := url |} ];
     total_score := total;
     scored_count := count |}.

(** [FactCheckService._process_response] *)
Definition _process_response (data : Api.response) : veracity :=
  let claims := default [] (Api.claims data) in
  match claims with
  | [] =>
      {| veracity_score := None; claims := [];
         status := Some "no_matching_claims" |}
  | _ =>
      let final :=
        fold_left process_claim (take 5 claims)
          {| processed_claims := []; total_score := 0; scored_count := 0 |} in
      let veracity_score :=
        if 0 <? scored_count final
        then Some (round_div (total_score final) (scored_count final))
        else None in
      {| veracity_score := veracity_score;
         claims := processed_claims final;
         status := Some "success" |}
  end.

(** The request [check_claim] sends to the claim-search endpoint (the
    [params] of [client.get], the key aside). *)
Record request : Type := { query : string; languageCode : string }.

(** What [client.get] and [response.json()] yield: a status code with
    the decoded body ([None] when the body is not JSON, which makes
    [response.json()] raise), or an exception of the transport. *)
Inductive http_outcome : Type :=
| Response (status_code : Z) (body : option Api.response)
| TransportError (e : exn).

(** The remote endpoint: its answer to a request, given the requests
    made to it before. *)
Definition endpoint : Type := list request -> request -> http_outcome.

(** Computations that talk to the endpoint: the state is the list of the
    requests sent so far, oldest first. *)
Definition Client (A : Type) : Type := list request -> A * list request.

#[export] Instance client_ret : MRet Client := fun A a sent => (a, sent).
#[export] Instance client_bind : MBind Client :=
  fun A B f m sent => let '(a, sent') := m sent in f a sent'.

(** [await client.get(FACTCHECK_API_URL, params=...)] *)
Definition http_get (remote : endpoint) (r : request) : Client http_outcome :=
  fun sent => (remote sent r, sent ++ [r]).

Definition failed_check (reason : string) : veracity :=
  {| veracity_score := None; claims := []; status := Some reason |}.

(** [FactCheckService.check_claim]; [api_key] is [self.api_key]. *)
Definition check_claim (api_key : option string) (remote : endpoint)
    (claim_text : string) (language : string) : Client veracity :=
  if negb (truthy_opt api_key) then
    mret (failed_check "no_api_key")
  else
    response ← http_get remote
      {| query := slice_to 200 claim_text; languageCode := language |};
    mret
      match response with
      | Response status_code body =>
          if status_code =? 200 then
            match body with
            | Some data => _process_response data
            | None => failed_check "error"            (* except Exception *)
            end
          else if status_code =? 403 then failed_check "access_denied"
          else failed_check "error"
      | TransportError _ => failed_check "error"      (* except Exception *)
      end.

(** ** The tables ([app/db/models.py]) *)

Module Db.

(** A row of [articles], keyed by its [id]: the columns the consumer
    reads or writes, and two it never touches. *)
Record Article : Type := {
  title : string;
  content : string;
  veracity_score : option Z;
  fact_check_claims : list processed_claim
}.

(** A row of [article_summaries]. *)
Record ArticleSummary : Type := {
  s_article_id : string;
  mode : string;
  summary : string;
  generated_at : Z
}.

(** A row of [article_jargon]; the values are stored as the extractor
    gave them. *)
Record ArticleJargon : Type := {
  j_article_id : string;
  term : json;
  definition : json;
  difficulty : json
}.

(** The database.  [articles] has [id] as primary key; the other two
    tables have no uniqueness constraint beyond their surrogate key,
    which nothing here reads and which is left out. *)
Record Store : Type := {
  articles : gmap string Article;
  article_summaries : list ArticleSummary;
  article_jargon : list ArticleJargon
}.

(** The operations of a session that reach the database and may raise. *)
Inductive op : Type :=
| QueryArticle
| QuerySummary (mode : string)
| DeleteJargon
| Commit.

(** An [Article] instance loaded in a session: the mapped columns, and
    the plain instance attributes [veracity_claims] and
    [veracity_checked_at], which no column of the table maps and which a
    flush therefore does not write. *)
Record ArticleObject : Type := {
  columns : Article;
  veracity_claims : option (list processed_claim);
  veracity_checked_at : option Z
}.

Definition load (row : Article) : ArticleObject :=
  {| columns := row; veracity_claims := None; veracity_checked_at := None |}.

End Db.

(** Work inside one session: the state is the transaction's view of the
    database, and an exception abandons it. *)
Definition Txn (A : Type) : Type := Db.Store -> outcome (A * Db.Store).

#[export] Instance txn_ret : MRet Txn := fun A a st => Returned (a, st).
#[export] Instance txn_bind : MBind Txn :=
  fun A B f m st =>
    match m st with
    | Returned (a, st') => f a st'
    | Raised e => Raised e
    end.

(** The exception a failing database operation raises. *)
Definition database_error : exn := Exception "database error".

Section Session.

(** Which database operations raise during this session. *)
Variable faults : Db.op -> bool.

Definition reach (o : Db.op) : Txn unit :=
  fun st => if faults o then Raised database_error else Returned ((), st).

(** Reading from, and writing to, the transaction's view. *)
Definition view {A} (f : Db.Store -> A) : Txn A :=
  fun st => Returned (f st, st).
Definition modify (f : Db.Store -> Db.Store) : Txn unit :=
  fun st => Returned ((), f st).

(** [db.query(Article).filter(Article.id == article_id).first()] *)
Definition query_article (article_id : string) : Txn (option Db.ArticleObject) :=
  _ ← reach Db.QueryArticle;
  view (fun st => Db.load <$> Db.articles st !! article_id).

Definition summary_key (article_id mode : string) (row : Db.ArticleSummary) : bool :=
  bool_decide (Db.s_article_id row = article_id) && bool_decide (Db.mode row = mode).

(** [db.query(ArticleSummary).filter(ArticleSummary.article_id ==
    article_id, ArticleSummary.mode == mode).first()]: whether such a row
    exists; the row itself is the first one [update_summary] finds. *)
Definition query_summary (article_id mode : string) : Txn (option Db.ArticleSummary) :=
  _ ← reach (Db.QuerySummary mode);
  view (fun st => find (summary_key article_id mode) (Db.article_summaries st)).

Fixpoint update_first {A} (p : A -> bool) (f : A -> A) (rows : list A) : list A :=
  match rows with
  | [] => []
  | row :: rest => if p row then f row :: rest else row :: update_first p f rest
  end.

(** [existing.summary = text; existing.generated_at = datetime.utcnow()]
    on the row [query_summary] returned. *)
Definition update_summary (article_id mode text : string) (now : Z) : Txn unit :=
  modify (fun st =>
    {| Db.articles := Db.articles st;
       Db.article_summaries :=
         update_first (summary_key article_id mode)
           (fun row => {| Db.s_article_id := Db.s_article_id row;
                          Db.mode := Db.mode row;
                          Db.summary := text;
                          Db.generated_at := now |})
           (Db.article_summaries st);
       Db.article_jargon := Db.article_jargon st |}).

(** [db.add(ArticleSummary(article_id=..., mode=..., summary=...))];
    [generated_at] takes its default, [datetime.utcnow]. *)
Definition add_summary (article_id mode text : string) (now : Z) : Txn unit :=
  modify (fun st =>
    {| Db.articles := Db.articles st;
       Db.article_summaries :=
         Db.article_summaries st ++
         [ {| Db.s_article_id := article_id; Db.mode := mode;
              Db.summary := text; Db.generated_at := now |} ];
       Db.article_jargon := Db.article_jargon st |}).

(** [db.query(ArticleJargon).filter(ArticleJargon.article_id ==
    article_id).delete()] *)
Definition delete_jargon (article_id : string) : Txn unit :=
  _ ← reach Db.DeleteJargon;
  modify (fun st =>
    {| Db.articles := Db.articles st;
       Db.article_summaries := Db.article_summaries st;
       Db.article_jargon :=
         List.filter (fun row => negb (bool_decide (Db.j_article_id row = article_id)))
           (Db.article_jargon st) |}).

(** [db.add(ArticleJargon(...))] *)
Definition add_jargon (row : Db.ArticleJargon) : Txn unit :=
  modify (fun st =>
    {| Db.articles := Db.articles st;
       Db.article_summaries := Db.article_summaries st;
       Db.article_jargon := Db.article_jargon st ++ [row] |}).

(** [db.commit()]: flushes the mapped columns of the loaded article and
    commits. *)
Definition commit (article_id : string) (article : Db.ArticleObject) : Txn unit :=
  _ ← reach Db.Commit;
  modify (fun st =>
    {| Db.articles := <[article_id := Db.columns article]> (Db.articles st);
       Db.article_summaries := Db.article_summaries st;
       Db.article_jargon := Db.article_jargon st |}).

(** The two blocks [# Save Kid summary] and [# Save Pro summary] of
    [_save_to_database], which differ in the mode only. *)
Definition save_summary (article_id mode : string) (text : option string) (now : Z) : Txn unit :=
  match text with
  | Some text =>
      if truthy text then
        existing ← query_summary article_id mode;
        match existing with
        | Some _ => update_summary article_id mode text now
        | None => add_summary article_id mode text now
        end
      else mret ()
  | None => mret ()
  end.

(** [isinstance(item, dict) and item.get("term")] *)
Definition has_term (item : json) : bool :=
  match item with
  | JObj fields =>
      match dict_get fields "term" with
      | Some v => json_truthy v
      | None => false
      end
  | _ => false
  end.

(** The row [ArticleJargon(article_id=article_id, term=item.get("term",
    ""), definition=item.get("definition", ""),
    difficulty=item.get("difficulty", "intermediate"))]. *)
Definition jargon_row (article_id : string) (item : json) : Db.ArticleJargon :=
  let fields := match item with JObj fields => fields | _ => [] end in
  {| Db.j_article_id := article_id;
     Db.term := default (JStr "") (dict_get fields "term");
     Db.definition := default (JStr "") (dict_get fields "definition");
     Db.difficulty := default (JStr "intermediate") (dict_get fields "difficulty") |}.

(** [for item in jargon_list: if ...: db.add(...)] *)
Fixpoint add_jargon_terms (article_id : string) (jargon_list : list json) : Txn unit :=
  match jargon_list with
  | [] => mret ()
  | item :: rest =>
      _ ← (if has_term item then add_jargon (jargon_row article_id item) else mret ());
      add_jargon_terms article_id rest
  end.

(** The [try] block of [_save_to_database]; [true] when it ran to the
    end, [false] when it left through the early [return]. *)
Definition save_body (article_id : string) (kid_summary pro_summary : option string)
    (jargon_list : list json) (veracity_data : veracity) (now : Z) : Txn bool :=
  article ← query_article article_id;
  match article with
  | None => mret false
  | Some article =>
      (* Update article with veracity score *)
      let article :=
        if bool_decide (veracity_score veracity_data ≠ None)
           || bool_decide (claims veracity_data ≠ [])
        then {| Db.columns :=
                  {| Db.title := Db.title (Db.columns article);
                     Db.content := Db.content (Db.columns article);
                     Db.veracity_score := veracity_score veracity_data;
                     Db.fact_check_claims := Db.fact_check_claims (Db.columns article) |};
                Db.veracity_claims := Some (claims veracity_data);
                Db.veracity_checked_at := Some now |}
        else article in
      _ ← save_summary article_id "kid" kid_summary now;
      _ ← save_summary article_id "pro" pro_summary now;
      (* Save jargon terms *)
      _ ← match jargon_list with
          | [] => mret ()
          | _ => _ ← delete_jargon article_id;
                 add_jargon_terms article_id jargon_list
          end;
      _ ← commit article_id article;
      mret true
  end.

(** [AINewsConsumer._save_to_database] on the database [db]: the
    database afterwards, and whether the call returned or raised.  The
    session is closed on every path; what it had not committed is
    gone. *)
Definition _save_to_database (article_id : string) (kid_summary pro_summary : option string)
    (jargon_list : list json) (veracity_data : veracity) (now : Z)
    (db : Db.Store) : Db.Store * outcome unit :=
  match save_body article_id kid_summary pro_summary jargon_list veracity_data now db with
  | Returned (true, st) => (st, Returned ())       (* db.commit() went through *)
  | Returned (false, _) => (db, Returned ())       (* return before any write *)
  | Raised e => (db, Raised e)                     (* db.rollback(); raise *)
  end.

End Session.

(** ** The consumer ([app/services/ai_consumer.py]) *)

(** A decoded message of the [news-raw] topic; an absent key is [None]. *)
Module Msg.

Record t : Type := {
  id : option string;
  title : option string;
  content : option string
}.

End Msg.

(** [gemini_service]: what its two calls yield for a given input. *)
Record GeminiService : Type := {
  generate_summary : string -> string -> outcome string;
  extract_jargon : string -> outcome json
}.

(** The surroundings of the consumer while it handles one message. *)
Record world : Type := {
  gemini_service : GeminiService;
  api_key : option string;          (* settings.gemini_api_key *)
  remote : endpoint;                (* the claim-search endpoint *)
  faults : Db.op -> bool;           (* database operations that raise *)
  utcnow : Z                        (* datetime.utcnow() *)
}.

(** [AINewsConsumer._generate_summary] *)
Definition _generate_summary (w : world) (content mode : string) : outcome (option string) :=
  try_except
    match generate_summary (gemini_service w) content mode with
    | Returned summary => Returned (Some summary)
    | Raised e => Raised e
    end
    (fun _ => Returned None).

(** [AINewsConsumer._extract_jargon] *)
Definition _extract_jargon (w : world) (content : string) : outcome (list json) :=
  try_except
    match extract_jargon (gemini_service w) content with
    | Returned jargon =>
        Returned match jargon with JArr items => items | _ => [] end
    | Raised e => Raised e
    end
    (fun _ => Returned []).

(** [AINewsConsumer._check_veracity].  Its [try] body raises only if
    [content.split('.')] had no first element. *)
Definition _check_veracity (w : world) (title content : string) : Client (outcome veracity) :=
  (* Use title for primary claim check *)
  result ← check_claim (api_key w) (remote w) title "en";
  (* If no results from title, try first sentence of content *)
  if bool_decide (status result = Some "no_matching_claims") && truthy content then
    match split "." content with
    | piece :: _ =>
        let first_sentence := slice_to 200 piece in
        result ← check_claim (api_key w) (remote w) first_sentence "en";
        mret (Returned result)
    | [] => mret (Returned (failed_check "error"))    (* except Exception *)
    end
  else mret (Returned result).

Inductive subtask : Type := KidSummary | ProSummary | JargonExtraction | VeracityCheck.

(** What the consumer does that is visible outside the database. *)
Inductive action : Type :=
| Dispatched (task : subtask)
| Requested (r : request).

(** The dict substituted for a veracity check that raised. *)
Definition no_veracity : veracity :=
  {| veracity_score := None; claims := []; status := None |}.

(** [process_article] from [# Handle any exceptions from concurrent
    tasks] on: the four arguments are what [asyncio.gather(...,
    return_exceptions=True)] handed back, a value or the exception
    raised. *)
Definition handle_results (w : world) (article_id : string)
    (kid_summary pro_summary : outcome (option string))
    (jargon_list : outcome (list json)) (veracity_data : outcome veracity)
    (db : Db.Store) : Db.Store * outcome unit :=
  let kid_summary := match kid_summary with Raised _ => None | Returned v => v end in
  let pro_summary := match pro_summary with Raised _ => None | Returned v => v end in
  let jargon_list := match jargon_list with Raised _ => [] | Returned v => v end in
  let veracity_data := match veracity_data with Raised _ => no_veracity | Returned v => v end in
  (* Save to database *)
  _save_to_database (faults w) article_id kid_summary pro_summary jargon_list
    veracity_data (utcnow w) db.

(** One run of [process_article]. *)
Record run : Type := {
  db_after : Db.Store;
  trace : list action;
  result : outcome unit
}.

(** [AINewsConsumer.process_article].  The four subtasks share no state,
    so they are run one after the other, in the order [gather] lists
    them. *)
Definition process_article (w : world) (article_data : Msg.t) (db : Db.Store) : run :=
  let article_id := Msg.id article_data in
  let title := default "" (Msg.title article_data) in
  let content := default "" (Msg.content article_data) in
  match article_id with
  | Some article_id =>
      if negb (truthy article_id) || negb (truthy content) then
        {| db_after := db; trace := []; result := Returned () |}
      else
        (* Run AI tasks concurrently *)
        let kid_summary := _generate_summary w content "kid" in
        let pro_summary := _generate_summary w content "pro" in
        let jargon_list := _extract_jargon w content in
        let '(veracity_data, sent) := _check_veracity w title content [] in
        let '(db', result) :=
          handle_results w article_id kid_summary pro_summary jargon_list
            veracity_data db in
        {| db_after := db';
           trace := [Dispatched KidSummary; Dispatched ProSummary;
                     Dispatched JargonExtraction; Dispatched VeracityCheck]
                    ++ (Requested <$> sent);
           result := result |}
  | None => {| db_after := db; trace := []; result := Returned () |}
  end.

(** One message as the loop of [start] meets it: the message, the value
    of [self.running] at that moment, and the surroundings while it is
    handled. *)
Record delivery : Type := {
  message : Msg.t;
  running : bool;
  around : world
}.

(** The [async for message in self.consumer.consume()] loop of [start]:
    the database when the loop ends, and everything done on the way. *)
Fixpoint consume (stream : list delivery) (db : Db.Store) : Db.Store * list action :=
  match stream with
  | [] => (db, [])
  | d :: rest =>
      if negb (running d) then (db, [])           (* break *)
      else
        let r := process_article (around d) (message d) db in
        (* an exception of process_article is logged; continue *)
        let '(db', actions) := consume rest (db_after r) in
        (db', trace r ++ actions)
  end.

(** [AINewsConsumer.start]; [connected] is what
    [await self.consumer.start()] yields. *)
Definition start (connected : outcome unit) (stream : list delivery)
    (db : Db.Store) : Db.Store * list action :=
  match connected with
  | Returned _ => consume stream db
  | Raised _ => (db, [])
  end.

(** ** The Gemini service ([app/services/gemini.py]) *)

(** More of Python's [str], as [extract_jargon] uses it. *)
Module PyText.

(** [c.isspace()] on the ASCII range: tab to carriage return, the four
    separators 28 to 31, and the space. *)
Definition is_space (c : ascii) : bool :=
  let n := nat_of_ascii c in
  ((9 <=? n)%nat && (n <=? 13)%nat) || ((28 <=? n)%nat && (n <=? 32)%nat).

(** [s.lstrip()] *)
Fixpoint lstrip (s : string) : string :=
  match s with
  | EmptyString => EmptyString
  | String c s' => if is_space c then lstrip s' else s
  end.

(** [s.rstrip()] *)
Fixpoint rstrip (s : string) : string :=
  match s with
  | EmptyString => EmptyString
  | String c s' =>
      match rstrip s' with
      | EmptyString => if is_space c then EmptyString else String c EmptyString
      | rest => String c rest
      end
  end.

(** [s.strip()] *)
Definition strip (s : string) : string := rstrip (lstrip s).

(** [s.endswith(suffix)] *)
Fixpoint endswith (suffix s : string) : bool :=
  bool_decide (s = suffix) ||
  match s with
  | EmptyString => false
  | String _ s' => endswith suffix s'
  end.

(** [s.split(sep, 1)[1]] for a one-character separator: what follows
    the first [sep]; [None] when there is no [sep], where the index
    raises [IndexError]. *)
Fixpoint after_first (sep : ascii) (s : string) : option string :=
  match s with
  | EmptyString => None
  | String c s' => if decide (c = sep) then Some s' else after_first sep s'
  end.

(** What precedes the last occurrence of [sep] in [s], if there is
    one. *)
Fixpoint before_last (sep s : string) : option string :=
  match s with
  | EmptyString => if startswith sep EmptyString then Some EmptyString else None
  | String c s' =>
      match before_last sep s' with
      | Some before => Some (String c before)
      | None => if startswith sep s then Some EmptyString else None
      end
  end.

(** [s.rsplit(sep, 1)[0]] *)
Definition rsplit_head (sep s : string) : string := default s (before_last sep s).

Definition newline : ascii := ascii_of_nat 10.
Definition quote : string := String (ascii_of_nat 34) EmptyString.

(** The lines of a triple-quoted literal, joined by newlines. *)
Definition lines (ls : list string) : string :=
  foldr (fun l rest => l +:+ match rest with
                           | EmptyString => EmptyString
                           | _ => String newline rest
                           end) EmptyString ls.

End PyText.

Module Gemini.

Import PyText.

Definition fence : string := "```".

(** The prompt of [generate_summary]. *)
Definition summary_prompt (content mode : string) : string :=
  if decide (mode = "kid") then
    String newline (lines [
      "Summarize this news article for a 10-year-old reader:";
      "- Use simple words and short sentences";
      "- Explain technical terms with fun analogies";
      "- Keep it under 150 words";
      "- Make it engaging and educational" ])
    +:+ String newline (String newline ("Article: " +:+ content))
    +:+ String newline (String newline "Summary:")
  else
    String newline (lines [
      "Provide a professional summary for industry experts:";
      "- Maintain technical accuracy and terminology";
      "- Include key statistics and citations if present";
      "- Highlight industry implications";
      "- Keep it under 300 words" ])
    +:+ String newline (String newline ("Article: " +:+ content))
    +:+ String newline (String newline "Summary:").

(** The prompt of [extract_jargon]. *)
Definition jargon_prompt (content : string) : string :=
  String newline (lines [
    "Extract technical terms from this article and provide definitions.";
    "Return ONLY valid JSON array, no other text." ])
  +:+ String newline (String newline
        ("Format: [{" +:+ quote +:+ "term" +:+ quote +:+ ": " +:+ quote +:+ "..." +:+ quote
         +:+ ", " +:+ quote +:+ "definition" +:+ quote +:+ ": " +:+ quote +:+ "..." +:+ quote
         +:+ ", " +:+ quote +:+ "difficulty" +:+ quote +:+ ": " +:+ quote
         +:+ "basic|intermediate|advanced" +:+ quote +:+ "}]"))
  +:+ String newline (String newline ("Article: " +:+ content))
  +:+ String newline (String newline "JSON:").

Section Service.

(** [self.model.generate_content_async(prompt)] followed by [.text]:
    the text the model answers a prompt with, or the exception of the
    call. *)
Variable generate : string -> outcome string.

(** [json.loads]; [None] when it raises [JSONDecodeError]. *)
Variable loads : string -> option json.

(** [GeminiService.generate_summary] *)
Definition generate_summary (content mode : string) : outcome string :=
  match generate (summary_prompt content mode) with
  | Returned text => Returned (strip text)
  | Raised e => Raised e                               (* except Exception: raise *)
  end.

(** The clean-up of [extract_jargon]: the answer stripped, without its
    first line if it opens with a fence, without what follows the last
    fence if it ends with one.  [None] when the answer opens with a
    fence and has no second line. *)
Definition unfenced (answer : string) : option string :=
  let text := strip answer in
  match (if startswith fence text then after_first newline text else Some text) with
  | Some text => Some (if endswith fence text then rsplit_head fence text else text)
  | None => None
  end.

(** [GeminiService.extract_jargon] *)
Definition extract_jargon (content : string) : outcome json :=
  match generate (jargon_prompt content) with
  | Returned answer =>
      match unfenced answer with
      | Some text =>
          match loads text with
          | Some jargon_list => Returned jargon_list
          | None => Returned (JArr [])                 (* except json.JSONDecodeError *)
          end
      | None => Raised (Exception "list index out of range")   (* except Exception: raise *)
      end
  | Raised e => Raised e                               (* except Exception: raise *)
  end.

End Service.

End Gemini.

(** [gemini_service], over a model and a JSON decoder. *)
Definition gemini_service_of (generate : string -> outcome string)
    (loads : string -> option json) : GeminiService :=
  {| generate_summary := Gemini.generate_summary generate;
     extract_jargon := Gemini.extract_jargon generate loads |}.

(** ** What the database holds for an article *)

Definition stored_summary (db : Db.Store) (article_id mode : string) : option string :=
  Db.summary <$> find (summary_key article_id mode) (Db.article_summaries db).

Definition owned_by (article_id : string) (row : Db.ArticleJargon) : bool :=
  bool_decide (Db.j_article_id row = article_id).

Definition stored_jargon (db : Db.Store) (article_id : string) : list Db.ArticleJargon :=
  List.filter (owned_by article_id) (Db.article_jargon db).

Definition stored_score (db : Db.Store) (article_id : string) : option Z :=
  row ← Db.articles db !! article_id; Db.veracity_score row.

Definition stored_claims (db : Db.Store) (article_id : string) : option (list processed_claim) :=
  Db.fact_check_claims <$> Db.articles db !! article_id.

Definition no_faults : Db.op -> bool := fun _ => false.

(** ** Vocabulary of the statements *)

(** The numeric scores among a list of processed claims. *)
Definition numeric_scores (cs : list processed_claim) : list Z := omap score cs.

Definition sum_scores (scores : list Z) : Z := foldr Z.add 0 scores.

(** [m] is an integer nearest to [total / n]. *)
Definition nearest_to_mean (m total n : Z) : Prop := 2 * Z.abs (m * n - total) <= n.

(** The entry [process_claim] appends for a claim. *)
Definition processed (claim : Api.claim) : processed_claim :=
  let review := default Api.no_review (head (Api.claimReview claim)) in
  let rating := default "" (Api.textualRating review) in
  {| claim_text := default "" (Api.text claim);
     claimant := default "Unknown" (Api.claimant claim);
     rating := rating;
     score := _rating_to_score rating;
     publisher := default "Unknown" (Api.publisher_of review ≫= Api.name);
     review_url := default "" (Api.url review) |}.

(** The loop keeps the running total and count in step with the entries
    appended so far. *)
Definition in_step (acc : scoring) : Prop :=
  total_score acc = sum_scores (numeric_scores (processed_claims acc)) /\
  scored_count acc = Z.of_nat (length (numeric_scores (processed_claims acc))).

(** The characters of [s] before the first [sep]. *)
Fixpoint upto (sep : ascii) (s : string) : string :=
  match s with
  | EmptyString => EmptyString
  | String c s' => if decide (c = sep) then EmptyString else String c (upto sep s')
  end.

(** The endpoint answered 200 with no claim in the body. *)
Definition no_claims_found (o : http_outcome) : Prop :=
  exists data, o = Response 200 (Some data) /\ default [] (Api.claims data) = [].

(** The answer of [check_claim] to what the endpoint gave back. *)
Definition interpret (response : http_outcome) : veracity :=
  match response with
  | Response 200 (Some data) => _process_response data
  | Response 403 _ => failed_check "access_denied"
  | _ => failed_check "error"
  end.

(** The summaries table after the upsert of one mode. *)
Definition upsert_summary (article_id mode : string) (text : option string) (now : Z)
    (rows : list Db.ArticleSummary) : list Db.ArticleSummary :=
  if truthy_opt text then
    let text := default "" text in
    match find (summary_key article_id mode) rows with
    | Some _ =>
        update_first (summary_key article_id mode)
          (fun row => {| Db.s_article_id := Db.s_article_id row; Db.mode := Db.mode row;
                         Db.summary := text; Db.generated_at := now |})
          rows
    | None =>
        rows ++ [ {| Db.s_article_id := article_id; Db.mode := mode;
                     Db.summary := text; Db.generated_at := now |} ]
    end
  else rows.

(** The rows built from the items of an extraction that name a term. *)
Definition new_terms (article_id : string) (jargon_list : list json) : list Db.ArticleJargon :=
  jargon_row article_id <$> List.filter has_term jargon_list.

(** The jargon table after the replacement. *)
Definition replace_jargon (article_id : string) (jargon_list : list json)
    (rows : list Db.ArticleJargon) : list Db.ArticleJargon :=
  match jargon_list with
  | [] => rows
  | _ =>
      List.filter (fun row => negb (bool_decide (Db.j_article_id row = article_id))) rows
      ++ new_terms article_id jargon_list
  end.

(** Whether a result counts as an assessment. *)
Definition assessed (veracity_data : veracity) : bool :=
  bool_decide (veracity_score veracity_data ≠ None)
  || bool_decide (claims veracity_data ≠ []).

(** The article row after the veracity update. *)
Definition rescored (veracity_data : veracity) (row : Db.Article) : Db.Article :=
  if assessed veracity_data
  then {| Db.title := Db.title row; Db.content := Db.content row;
          Db.veracity_score := veracity_score veracity_data;
          Db.fact_check_claims := Db.fact_check_claims row |}
  else row.

(** What a pass that goes through leaves in the database. *)
Definition committed (article_id : string) (kid_summary pro_summary : option string)
    (jargon_list : list json) (veracity_data : veracity) (now : Z)
    (row : Db.Article) (db : Db.Store) : Db.Store :=
  {| Db.articles := <[article_id := rescored veracity_data row]> (Db.articles db);
     Db.article_summaries :=
       upsert_summary article_id "pro" pro_summary now
         (upsert_summary article_id "kid" kid_summary now (Db.article_summaries db));
     Db.article_jargon := replace_jargon article_id jargon_list (Db.article_jargon db) |}.

(** The operations a pass over an existing article reaches after it has
    loaded the article. *)
Definition reached_ops (kid_summary pro_summary : option string)
    (jargon_list : list json) : list Db.op :=
  (if truthy_opt kid_summary then [Db.QuerySummary "kid"] else []) ++
  (if truthy_opt pro_summary then [Db.QuerySummary "pro"] else []) ++
  match jargon_list with [] => [] | _ => [Db.DeleteJargon] end ++
  [Db.Commit].




(** A worked scenario: the article [a1] with one stored term, next to
    an article [a2] with a term of its own. *)
Definition sample_article : Db.Article :=
  {| Db.title := "Vaccine causes X";
     Db.content := "Sentence one. Sentence two.";
     Db.veracity_score := None;
     Db.fact_check_claims := [] |}.

Definition old_term (article_id term : string) : Db.ArticleJargon :=
  {| Db.j_article_id := article_id; Db.term := JStr term;
     Db.definition := JStr "..."; Db.difficulty := JStr "basic" |}.

Definition sample_db : Db.Store :=
  {| Db.articles := {[ "a1" := sample_article ]};
     Db.article_summaries := [];
     Db.article_jargon := [old_term "a1" "RNA"; old_term "a2" "GDP"] |}.

Definition mrna : json :=
  JObj [("term", JStr "mRNA"); ("definition", JStr "..."); ("difficulty", JStr "advanced")].

Definition rated_false : processed_claim :=
  {| claim_text := "Vaccine causes X"; claimant := "Unknown"; rating := "False";
     score := Some 0; publisher := "Unknown"; review_url := "" |}.

Definition assessment : veracity :=
  {| veracity_score := Some 0; claims := [rated_false]; status := Some "success" |}.

(** The endpoint that knows one claim, rated "False". *)
Definition one_false_claim : endpoint :=
  fun _ _ =>
    Response 200
      (Some {| Api.claims :=
                 Some [ {| Api.text := Some "Vaccine causes X"; Api.claimant := None;
                           Api.claimReview :=
                             [ {| Api.textualRating := Some "False";
                                  Api.publisher_of := None; Api.url := None |} ] |} ] |}).

Definition sample_world (fault_of : Db.op -> bool) : world :=
  {| gemini_service :=
       {| generate_summary := fun _ mode => Returned ("summary for " +:+ mode);
          extract_jargon := fun _ => Returned (JArr [mrna]) |};
     api_key := Some "key";
     remote := one_false_claim;
     faults := fault_of;
     utcnow := 7 |}.

Definition sample_message : Msg.t :=
  {| Msg.id := Some "a1"; Msg.title := Some "Vaccine causes X";
     Msg.content := Some "Sentence one. Sentence two." |}.

Definition commit_fails (o : Db.op) : bool :=
  match o with Db.Commit => true | _ => false end.


(** The row an upsert writes over [row]. *)
Definition rewritten (text : string) (now : Z) (row : Db.ArticleSummary) : Db.ArticleSummary :=
  {| Db.s_article_id := Db.s_article_id row; Db.mode := Db.mode row;
     Db.summary := text; Db.generated_at := now |}.

(** The stored summary rows of one key, in table order. *)
Definition summary_rows (db : Db.Store) (article_id mode : string) : list Db.ArticleSummary :=
  List.filter (summary_key article_id mode) (Db.article_summaries db).

(** What an upsert makes of the rows of its key. *)
Definition upserted_rows (article_id mode : string) (text : option string) (now : Z)
    (before : list Db.ArticleSummary) : list Db.ArticleSummary :=
  if truthy_opt text then
    match before with
    | [] => [ {| Db.s_article_id := article_id; Db.mode := mode;
                 Db.summary := default "" text; Db.generated_at := now |} ]
    | first :: rest => rewritten (default "" text) now first :: rest
    end
  else before.

(** What the four subtasks hand to the pass for a given content and
    title: the text of a summary or nothing, the items of the extracted
    array or none, the answer of the veracity check. *)
Definition summary_result (w : world) (content mode : string) : option string :=
  match generate_summary (gemini_service w) content mode with
  | Returned summary => Some summary
  | Raised _ => None
  end.

Definition jargon_result (w : world) (content : string) : list json :=
  match extract_jargon (gemini_service w) content with
  | Returned (JArr items) => items
  | _ => []
  end.

Definition veracity_result (w : world) (title content : string) : veracity :=
  match (_check_veracity w title content []).1 with
  | Returned answer => answer
  | Raised _ => no_veracity
  end.

(** A string of whitespace only. *)
Fixpoint blank (s : string) : bool :=
  match s with
  | EmptyString => true
  | String c s' => PyText.is_space c && blank s'
  end.

(** * Properties *)

(** ** Rating buckets *)

Example rating_true : _rating_to_score "TRUE" = Some 100.
Proof. reflexivity. Qed.
Example rating_pants_on_fire : _rating_to_score "Pants on Fire" = Some 0.
Proof. reflexivity. Qed.
Example rating_unrated : _rating_to_score "Unrated" = None.
Proof. reflexivity. Qed.
Example rating_mostly_false : _rating_to_score "Mostly False" = Some 20.
Proof. reflexivity. Qed.
Example rating_mixture : _rating_to_score "Mixed evidence" = Some 50.
Proof. reflexivity. Qed.

Lemma contains_of_startswith word s :
  startswith word s = true -> contains word s = true.
Proof. intros H. destruct s; simpl in *; rewrite H; reflexivity. Qed.

Lemma contains_tail word c s :
  contains word s = true -> contains word (String c s) = true.
Proof. intros H. simpl. rewrite H. apply orb_true_r. Qed.

(** A string that starts with [a ++ b] contains [b]. *)
Lemma startswith_app_contains a b s :
  startswith (a +:+ b) s = true -> contains b s = true.
Proof.
  revert s. induction a as [|c a IH]; intros s H.
  - apply contains_of_startswith. exact H.
  - destruct s as [|d s]; simpl in H; [discriminate|].
    destruct (decide (c = d)); [|discriminate].
    apply contains_tail, IH, H.
Qed.

(** A string that contains [a ++ b] contains [b]. *)
Lemma contains_app_r a b s :
  contains (a +:+ b) s = true -> contains b s = true.
Proof.
  induction s as [|c s IH]; intros H.
  - simpl in H. rewrite orb_false_r in H. apply (startswith_app_contains a b), H.
  - change (startswith (a +:+ b) (String c s) || contains (a +:+ b) s = true) in H.
    apply orb_true_iff in H as [H|H].
    + apply (startswith_app_contains a b), H.
    + apply contains_tail, IH, H.
Qed.

(** Every rating that matches a word of the "mostly true" row matches a
    word of the "true" row, which is tested first. *)
Lemma mostly_true_row_shadowed s :
  any_in ["mostly true"; "mostly accurate"; "largely true"] s = true ->
  any_in ["true"; "accurate"; "correct"; "verified"] s = true.
Proof.
  unfold any_in. simpl. rewrite !orb_false_r.
  intros H. apply orb_true_iff in H as [H|H]; [|apply orb_true_iff in H as [H|H]].
  - apply (contains_app_r "mostly " "true") in H. rewrite H. reflexivity.
  - apply (contains_app_r "mostly " "accurate") in H. rewrite H.
    rewrite orb_true_r. reflexivity.
  - apply (contains_app_r "largely " "true") in H. rewrite H. reflexivity.
Qed.

(** C1 (code departs from the claim): the buckets are tested in the
    order of the table and the first match wins, so a rating of the
    "mostly true" row is caught by the "true" row before its own row is
    tried: "Mostly True" scores 100, not 80, and no rating at all scores
    80. *)
Theorem rating_mostly_true_scores_100 :
  _rating_to_score "Mostly True" = Some 100 /\
  forall rating, _rating_to_score rating <> Some 80.
Proof.
  split; [reflexivity|].
  intros rating. unfold _rating_to_score.
  destruct (any_in ["true"; "accurate"; "correct"; "verified"] (lower rating)) eqn:Htrue;
    [discriminate|].
  destruct (any_in ["mostly true"; "mostly accurate"; "largely true"] (lower rating)) eqn:Hmostly.
  - apply mostly_true_row_shadowed in Hmostly. congruence.
  - repeat match goal with |- context [if ?b then _ else _] => destruct b end;
      discriminate.
Qed.

(** ** The aggregate score *)

Lemma round_div_nearest a b : 0 < b -> nearest_to_mean (round_div a b) a b.
Proof.
  intros Hb. unfold nearest_to_mean, round_div.
  pose proof (Z.div_mod a b ltac:(lia)) as Hdm.
  pose proof (Z.mod_pos_bound a b Hb) as Hr.
  repeat case_match; lia.
Qed.

Lemma sum_scores_app xs ys : sum_scores (xs ++ ys) = sum_scores xs + sum_scores ys.
Proof. unfold sum_scores. induction xs as [|x xs IH]; simpl; lia. Qed.

Lemma numeric_scores_app xs ys :
  numeric_scores (xs ++ ys) = numeric_scores xs ++ numeric_scores ys.
Proof. apply omap_app. Qed.

Lemma process_claim_entry acc claim :
  processed_claims (process_claim acc claim) = processed_claims acc ++ [processed claim].
Proof.
  unfold process_claim, processed.
  destruct (Api.claimReview claim) as [|review ?]; cbn -[_rating_to_score];
    [|destruct (Api.publisher_of review); cbn -[_rating_to_score]];
    destruct (_rating_to_score _); reflexivity.
Qed.

Lemma process_claim_in_step acc claim : in_step acc -> in_step (process_claim acc claim).
Proof.
  intros [Ht Hc]. unfold in_step. rewrite process_claim_entry.
  rewrite numeric_scores_app, sum_scores_app, length_app, <- Ht.
  unfold process_claim, processed.
  destruct (Api.claimReview claim) as [|review ?]; cbn -[_rating_to_score];
    [|destruct (Api.publisher_of review); cbn -[_rating_to_score]];
    destruct (_rating_to_score _); cbn; lia.
Qed.

Lemma fold_process_claim claims acc :
  in_step acc ->
  in_step (fold_left process_claim claims acc) /\
  processed_claims (fold_left process_claim claims acc)
  = processed_claims acc ++ (processed <$> claims).
Proof.
  revert acc. induction claims as [|claim claims IH]; intros acc Hacc; simpl.
  - rewrite app_nil_r. auto.
  - destruct (IH _ (process_claim_in_step acc claim Hacc)) as [Hstep Hlist].
    split; [exact Hstep|].
    rewrite Hlist, process_claim_entry, <- app_assoc. reflexivity.
Qed.

(** [_process_response], entry by entry and total by total. *)
Lemma _process_response_unfold data :
  let found := default [] (Api.claims data) in
  let result := _process_response data in
  claims result = processed <$> take 5 found /\
  veracity_score result =
    (let scores := numeric_scores (claims result) in
     if 0 <? Z.of_nat (length scores)
     then Some (round_div (sum_scores scores) (Z.of_nat (length scores)))
     else None).
Proof.
  intros found result. subst found result. unfold _process_response.
  destruct (default [] (Api.claims data)) as [|claim rest] eqn:Hfound.
  - simpl. auto.
  - set (start := {| processed_claims := []; total_score := 0; scored_count := 0 |}).
    assert (in_step start) as Hstart by (split; reflexivity).
    destruct (fold_process_claim (take 5 (claim :: rest)) start Hstart) as [[Ht Hc] Hlist].
    cbn [claims veracity_score]. rewrite Hlist. cbn [processed_claims start app].
    split; [reflexivity|].
    rewrite Hlist in Ht, Hc. cbn [processed_claims start app] in Ht, Hc.
    rewrite Ht, Hc. reflexivity.
Qed.

(** C3: the scorer keeps the first five claims at most, in order; with
    no numeric score among them (or no claim at all) the aggregate is
    null, otherwise it is an integer nearest to the arithmetic mean of
    the numeric scores; scores 100 and 0 with one unscorable claim
    aggregate to 50. *)
Theorem veracity_score_is_rounded_mean :
  (forall data,
     let found := default [] (Api.claims data) in
     let result := _process_response data in
     let scores := numeric_scores (claims result) in
     claims result = processed <$> take 5 found /\
     (length (claims result) <= 5)%nat /\
     (scores = [] -> veracity_score result = None) /\
     (scores <> [] ->
      exists m, veracity_score result = Some m /\
                nearest_to_mean m (sum_scores scores) (Z.of_nat (length scores)))) /\
  (let rated r :=
     {| Api.text := Some "claim"; Api.claimant := None;
        Api.claimReview := [ {| Api.textualRating := Some r;
                                Api.publisher_of := None; Api.url := None |} ] |} in
   let result :=
     _process_response {| Api.claims := Some [rated "True"; rated "Unrated"; rated "False"] |} in
   score <$> claims result = [Some 100; None; Some 0] /\
   veracity_score result = Some 50).
Proof.
  split.
  - intros data found result scores.
    destruct (_process_response_unfold data) as [Hclaims Hscore].
    fold found result in Hclaims, Hscore. fold scores in Hscore.
    clearbody scores result found. cbv zeta in Hscore.
    split; [exact Hclaims|]. split.
    { rewrite Hclaims, length_fmap, length_take. lia. }
    split.
    + intros Hnil. rewrite Hscore, Hnil. reflexivity.
    + intros Hne. rewrite Hscore.
      destruct scores as [|s scores']; [congruence|].
      assert (0 < Z.of_nat (length (s :: scores'))) as Hpos by (simpl; lia).
      apply Z.ltb_lt in Hpos as Hpos'. rewrite Hpos'.
      eexists. split; [reflexivity|]. apply round_div_nearest, Hpos.
  - split; reflexivity.
Qed.

(** ** The two-stage query *)

Lemma split_first sep s : exists pieces, split sep s = upto sep s :: pieces.
Proof.
  induction s as [|c s [pieces IH]]; simpl.
  - eexists. reflexivity.
  - destruct (decide (c = sep)); [eexists; reflexivity|].
    rewrite IH. eexists. reflexivity.
Qed.

Lemma slice_to_length n s : (String.length (slice_to n s) <= n)%nat.
Proof.
  revert s. induction n as [|n IH]; intros [|c s]; simpl; try lia.
  specialize (IH s). lia.
Qed.

Lemma slice_to_idem n s : slice_to n (slice_to n s) = slice_to n s.
Proof.
  revert s. induction n as [|n IH]; intros [|c s]; simpl; try reflexivity.
  rewrite IH. reflexivity.
Qed.

Lemma _process_response_status data :
  status (_process_response data) = Some "no_matching_claims"
  <-> default [] (Api.claims data) = [].
Proof.
  unfold _process_response. destruct (default [] (Api.claims data)); simpl.
  - tauto.
  - split; discriminate.
Qed.

(** With a key configured, [check_claim] sends exactly one request, the
    text cut to 200 characters, and interprets what comes back. *)
Lemma check_claim_with_key key remote text language sent :
  truthy_opt key = true ->
  let r := {| query := slice_to 200 text; languageCode := language |} in
  check_claim key remote text language sent = (interpret (remote sent r), sent ++ [r]).
Proof.
  intros Hkey r. unfold check_claim. rewrite Hkey.
  unfold mbind, client_bind, mret, client_ret, http_get. cbn. fold r.
  f_equal. unfold interpret.
  destruct (remote sent r) as [code body|e]; [|reflexivity].
  destruct (code =? 200) eqn:H200.
  { apply Z.eqb_eq in H200 as ->. destruct body; reflexivity. }
  destruct (code =? 403) eqn:H403.
  { apply Z.eqb_eq in H403 as ->. reflexivity. }
  apply Z.eqb_neq in H200, H403.
  destruct code as [|p|p]; try reflexivity.
  repeat (destruct p as [p|p|]; try reflexivity; try congruence).
Qed.

(** When [check_claim] reports no matching claims. *)
Lemma interpret_no_match response :
  status (interpret response) = Some "no_matching_claims" <-> no_claims_found response.
Proof.
  unfold no_claims_found. split.
  - intros H. destruct response as [code body|e]; [|discriminate].
    destruct (decide (code = 200)) as [->|H200].
    + destruct body as [data|]; [|discriminate].
      exists data. split; [reflexivity|]. apply _process_response_status, H.
    + exfalso. destruct (decide (code = 403)) as [->|H403]; [discriminate|].
      unfold interpret in H. destruct code as [|p|p]; try discriminate.
      repeat (destruct p as [p|p|]; try discriminate; try congruence).
  - intros (data & -> & H). apply _process_response_status, H.
Qed.

(** C4: with the scorer configured, the check first asks about the
    title cut to 200 characters; it asks once more, about the content up
    to its first full stop cut to 200 characters, exactly when the first
    answer has the status of no matching claims and the content is not
    empty; nothing else is ever asked. *)
Theorem veracity_check_queries w title content :
  truthy_opt (api_key w) = true ->
  let primary := {| query := slice_to 200 title; languageCode := "en" |} in
  let fallback := {| query := slice_to 200 (upto "." content); languageCode := "en" |} in
  let first_answer := (check_claim (api_key w) (remote w) title "en" []).1 in
  let sent := (_check_veracity w title content []).2 in
  (String.length (query primary) <= 200)%nat /\
  (String.length (query fallback) <= 200)%nat /\
  (status first_answer = Some "no_matching_claims"
   <-> no_claims_found (remote w [] primary)) /\
  sent = primary ::
         (if bool_decide (status first_answer = Some "no_matching_claims")
             && truthy content
          then [fallback] else []) /\
  (truthy content = false -> sent = [primary]) /\
  (length sent <= 2)%nat.
Proof.
  intros Hkey primary fallback first_answer sent.
  pose proof (check_claim_with_key (api_key w) (remote w) title "en" [] Hkey) as Hfirst.
  cbv zeta in Hfirst. fold primary in Hfirst.
  assert (first_answer = interpret (remote w [] primary)) as Hanswer
    by (unfold first_answer; rewrite Hfirst; reflexivity).
  assert (sent = primary ::
            (if bool_decide (status first_answer = Some "no_matching_claims")
                && truthy content
             then [fallback] else [])) as Hsent.
  { unfold sent, _check_veracity. unfold mbind at 1. unfold client_bind.
    fold first_answer in Hfirst. rewrite Hfirst. rewrite Hanswer.
    set (go := bool_decide _ && truthy content). destruct go; [|reflexivity].
    destruct (split_first "." content) as [pieces ->].
    unfold mbind, client_bind, mret, client_ret.
    rewrite (check_claim_with_key _ _ _ _ _ Hkey). cbv zeta.
    rewrite slice_to_idem. reflexivity. }
  split; [apply slice_to_length|]. split; [apply slice_to_length|].
  split; [rewrite Hanswer; apply interpret_no_match|].
  split; [exact Hsent|]. split.
  - intros Hempty. rewrite Hsent, Hempty, andb_false_r. reflexivity.
  - rewrite Hsent. destruct (_ && _); simpl; lia.
Qed.

Lemma veracity_check_queries_witness :
  let w := {| gemini_service :=
                {| generate_summary := fun _ _ => Returned "summary";
                   extract_jargon := fun _ => Returned (JArr []) |};
              api_key := Some "key";
              remote := fun _ _ => Response 200 (Some {| Api.claims := Some [] |});
              faults := no_faults;
              utcnow := 0 |} in
  (_check_veracity w "Vaccine causes X" "Sentence one. Sentence two." []).2
  = [ {| query := "Vaccine causes X"; languageCode := "en" |};
      {| query := "Sentence one"; languageCode := "en" |} ].
Proof.
  intros w.
  exact (proj1 (proj2 (proj2 (proj2
    (veracity_check_queries w "Vaccine causes X" "Sentence one. Sentence two."
       eq_refl))))).
Defined.

(** ** The persistence pass *)

Section Pass.

Variable faults : Db.op -> bool.

Lemma save_summary_sound article_id mode text now st :
  faults (Db.QuerySummary mode) = false ->
  save_summary faults article_id mode text now st
  = Returned ((), {| Db.articles := Db.articles st;
                     Db.article_summaries :=
                       upsert_summary article_id mode text now (Db.article_summaries st);
                     Db.article_jargon := Db.article_jargon st |}).
Proof.
  intros Hok. unfold save_summary, upsert_summary.
  destruct text as [text|]; cbn [truthy_opt]; [|destruct st; reflexivity].
  destruct (truthy text); [|destruct st; reflexivity].
  unfold query_summary, mbind, txn_bind, reach, view. rewrite Hok. cbn.
  destruct (find _ _); reflexivity.
Qed.

Lemma add_jargon_terms_sound article_id jargon_list st :
  add_jargon_terms article_id jargon_list st
  = Returned ((), {| Db.articles := Db.articles st;
                     Db.article_summaries := Db.article_summaries st;
                     Db.article_jargon :=
                       Db.article_jargon st ++ new_terms article_id jargon_list |}).
Proof.
  unfold new_terms. revert st.
  induction jargon_list as [|item rest IH]; intros st; cbn [add_jargon_terms List.filter].
  - cbn. rewrite app_nil_r. destruct st; reflexivity.
  - unfold mbind, txn_bind.
    destruct (has_term item); cbn [add_jargon modify mret txn_ret];
      rewrite IH; cbn; [rewrite <- app_assoc|]; reflexivity.
Qed.

(** A pass over an existing article, with no operation failing, commits
    exactly [committed]. *)
Lemma save_goes_through article_id kid_summary pro_summary jargon_list veracity_data now row db :
  (forall o, faults o = false) ->
  Db.articles db !! article_id = Some row ->
  _save_to_database faults article_id kid_summary pro_summary jargon_list veracity_data now db
  = (committed article_id kid_summary pro_summary jargon_list veracity_data now row db,
     Returned ()).
Proof.
  intros Hok Hrow. unfold _save_to_database, save_body.
  unfold mbind at 1. unfold txn_bind at 1.
  unfold query_article, mbind, txn_bind, reach, view. rewrite Hok, Hrow. cbn [fmap option_fmap option_map].
  rewrite save_summary_sound by apply Hok.
  rewrite save_summary_sound by apply Hok.
  cbn [Db.articles Db.article_summaries Db.article_jargon].
  unfold committed, replace_jargon, rescored, assessed.
  destruct jargon_list as [|item rest].
  - unfold commit, mbind, txn_bind, mret, txn_ret, reach, modify. rewrite Hok.
    destruct (_ || _); reflexivity.
  - unfold delete_jargon, mbind, txn_bind, reach, modify. rewrite Hok.
    rewrite add_jargon_terms_sound.
    unfold commit, mbind, txn_bind, reach, modify, mret, txn_ret.
    rewrite Hok. cbn [Db.articles Db.article_summaries Db.article_jargon].
    destruct (_ || _); reflexivity.
Qed.

End Pass.

Section AnyPass.

Variable faults : Db.op -> bool.

Lemma save_summary_cases article_id mode text now st :
  save_summary faults article_id mode text now st
  = if truthy_opt text && faults (Db.QuerySummary mode)
    then Raised database_error
    else Returned ((), {| Db.articles := Db.articles st;
                          Db.article_summaries :=
                            upsert_summary article_id mode text now (Db.article_summaries st);
                          Db.article_jargon := Db.article_jargon st |}).
Proof.
  destruct (faults (Db.QuerySummary mode)) eqn:Hfault.
  - unfold save_summary, upsert_summary.
    destruct text as [text|]; cbn [truthy_opt andb]; [|destruct st; reflexivity].
    destruct (truthy text); cbn [andb]; [|destruct st; reflexivity].
    unfold query_summary, mbind, txn_bind, reach. rewrite Hfault. reflexivity.
  - rewrite andb_false_r. apply save_summary_sound, Hfault.
Qed.

(** Every way a pass can end: an operation it reaches raises and the
    database is as before; or there is no such article and the database
    is as before; or it commits [committed]. *)
Lemma save_cases article_id kid_summary pro_summary jargon_list veracity_data now db :
  let pass :=
    _save_to_database faults article_id kid_summary pro_summary jargon_list
      veracity_data now db in
  (pass = (db, Raised database_error) /\
   (faults Db.QueryArticle = true \/
    is_Some (Db.articles db !! article_id) /\
    existsb faults (reached_ops kid_summary pro_summary jargon_list) = true)) \/
  (pass = (db, Returned ()) /\
   faults Db.QueryArticle = false /\ Db.articles db !! article_id = None) \/
  (exists row,
     pass = (committed article_id kid_summary pro_summary jargon_list veracity_data
               now row db, Returned ()) /\
     Db.articles db !! article_id = Some row /\
     faults Db.QueryArticle = false /\
     existsb faults (reached_ops kid_summary pro_summary jargon_list) = false).
Proof.
  intros pass. subst pass. unfold _save_to_database, save_body.
  unfold mbind at 1. unfold txn_bind at 1.
  unfold query_article, mbind, txn_bind, reach, view.
  destruct (faults Db.QueryArticle) eqn:Hquery; [left; auto|].
  destruct (Db.articles db !! article_id) as [row|] eqn:Hrow;
    cbn [fmap option_fmap option_map]; [|right; left; auto].
  rewrite save_summary_cases. unfold reached_ops.
  destruct (truthy_opt kid_summary && faults (Db.QuerySummary "kid")) eqn:Hkid.
  { left. split; [reflexivity|]. right. split; [eauto|].
    apply andb_true_iff in Hkid as [-> Hkid]. cbn. rewrite Hkid. reflexivity. }
  rewrite save_summary_cases.
  destruct (truthy_opt pro_summary && faults (Db.QuerySummary "pro")) eqn:Hpro.
  { left. split; [reflexivity|]. right. split; [eauto|].
    apply andb_true_iff in Hpro as [-> Hpro].
    rewrite existsb_app. cbn. rewrite Hpro. apply orb_true_r. }
  assert (existsb faults (if truthy_opt kid_summary then [Db.QuerySummary "kid"] else [])
          = false) as Hkid'.
  { destruct (truthy_opt kid_summary); cbn in *; [rewrite Hkid|]; reflexivity. }
  assert (existsb faults (if truthy_opt pro_summary then [Db.QuerySummary "pro"] else [])
          = false) as Hpro'.
  { destruct (truthy_opt pro_summary); cbn in *; [rewrite Hpro|]; reflexivity. }
  rewrite !existsb_app, Hkid', Hpro'. cbn [orb].
  cbn [Db.articles Db.article_summaries Db.article_jargon].
  unfold committed, replace_jargon, rescored, assessed.
  destruct jargon_list as [|item rest].
  - unfold commit, mbind, txn_bind, mret, txn_ret, reach, modify. cbn [existsb app].
    destruct (faults Db.Commit) eqn:Hcommit.
    + left. split; [reflexivity|]. right. split; [eauto|]. reflexivity.
    + right. right. exists row. repeat split; try assumption.
      destruct (_ || _); reflexivity.
  - unfold delete_jargon, mbind, txn_bind, reach, modify. cbn [existsb app].
    destruct (faults Db.DeleteJargon) eqn:Hdelete.
    { left. split; [reflexivity|]. right. split; [eauto|]. reflexivity. }
    rewrite add_jargon_terms_sound.
    unfold commit, mbind, txn_bind, reach, modify, mret, txn_ret.
    cbn [Db.articles Db.article_summaries Db.article_jargon].
    destruct (faults Db.Commit) eqn:Hcommit.
    + left. split; [reflexivity|]. right. split; [eauto|]. reflexivity.
    + right. right. exists row. repeat split; try assumption.
      destruct (_ || _); reflexivity.
Qed.

End AnyPass.

(** ** What a committed pass leaves behind *)

Lemma filter_new_terms_own article_id jargon_list :
  List.filter (owned_by article_id) (new_terms article_id jargon_list)
  = new_terms article_id jargon_list.
Proof.
  unfold new_terms. induction (List.filter has_term jargon_list) as [|item items IH].
  - reflexivity.
  - cbn. unfold owned_by at 1. cbn. rewrite bool_decide_eq_true_2 by reflexivity.
    f_equal. exact IH.
Qed.


Lemma filter_deleted_own article_id (rows : list Db.ArticleJargon) :
  List.filter (owned_by article_id)
    (List.filter (fun row => negb (bool_decide (Db.j_article_id row = article_id))) rows)
  = [].
Proof.
  induction rows as [|row rows IH]; [reflexivity|]. cbn.
  destruct (bool_decide (Db.j_article_id row = article_id)) eqn:Hown; cbn.
  - exact IH.
  - unfold owned_by at 1. rewrite Hown. exact IH.
Qed.


(** After a replacement the article has the new terms and nothing else;
    the terms of every other article are as before. *)
Lemma replace_jargon_own article_id jargon_list rows :
  jargon_list <> [] ->
  List.filter (owned_by article_id) (replace_jargon article_id jargon_list rows)
  = new_terms article_id jargon_list.
Proof.
  intros Hne. unfold replace_jargon. destruct jargon_list as [|item rest]; [congruence|].
  rewrite List.filter_app, filter_deleted_own, filter_new_terms_own. reflexivity.
Qed.


(** The summaries table: an upsert makes its text the stored one, and
    leaves the stored text of every other key alone. *)
Lemma find_update_first_hit {A} (p : A -> bool) (f : A -> A) rows :
  (forall row, p row = true -> p (f row) = true) ->
  find p (update_first p f rows) = f <$> find p rows.
Proof.
  intros Hkeep. induction rows as [|row rows IH]; [reflexivity|]. cbn.
  destruct (p row) eqn:Hp; cbn.
  - rewrite (Hkeep row Hp). reflexivity.
  - rewrite Hp. exact IH.
Qed.

Lemma find_update_first_miss {A} (p q : A -> bool) (f : A -> A) rows :
  (forall row, p row = true -> q row = false /\ q (f row) = false) ->
  find q (update_first p f rows) = find q rows.
Proof.
  intros Hapart. induction rows as [|row rows IH]; [reflexivity|]. cbn.
  destruct (p row) eqn:Hp; cbn.
  - destruct (Hapart row Hp) as [-> ->]. reflexivity.
  - destruct (q row); [reflexivity|exact IH].
Qed.

Lemma find_snoc {A} (p : A -> bool) rows row :
  find p (rows ++ [row])
  = match find p rows with
    | Some found => Some found
    | None => if p row then Some row else None
    end.
Proof.
  induction rows as [|r rows IH]; cbn; [reflexivity|].
  destruct (p r); [reflexivity|exact IH].
Qed.

Lemma upsert_summary_stored article_id mode text now rows :
  truthy_opt text = true ->
  Db.summary <$> find (summary_key article_id mode) (upsert_summary article_id mode text now rows)
  = text.
Proof.
  intros Htext. unfold upsert_summary. rewrite Htext.
  destruct text as [text|]; [|discriminate]. cbn [default].
  destruct (find (summary_key article_id mode) rows) as [found|] eqn:Hfound.
  - rewrite find_update_first_hit, Hfound; [reflexivity|].
    intros row Hrow. exact Hrow.
  - rewrite find_snoc, Hfound. unfold summary_key. cbn.
    rewrite !bool_decide_eq_true_2 by reflexivity. reflexivity.
Qed.

Lemma upsert_summary_skipped article_id mode text now rows :
  truthy_opt text = false -> upsert_summary article_id mode text now rows = rows.
Proof. intros Htext. unfold upsert_summary. rewrite Htext. reflexivity. Qed.

Lemma upsert_summary_other article_id mode text now other_id other_mode rows :
  (other_id, other_mode) <> (article_id, mode) ->
  find (summary_key other_id other_mode) (upsert_summary article_id mode text now rows)
  = find (summary_key other_id other_mode) rows.
Proof.
  intros Hne. unfold upsert_summary.
  destruct (truthy_opt text); [|reflexivity].
  assert (forall row, summary_key article_id mode row = true ->
                      summary_key other_id other_mode row = false) as Hapart.
  { unfold summary_key. intros row Hrow.
    apply andb_true_iff in Hrow as [Hid Hmode].
    apply bool_decide_eq_true in Hid, Hmode.
    apply andb_false_iff.
    destruct (decide (Db.s_article_id row = other_id)) as [Hid'|Hid'];
      [|left; apply bool_decide_eq_false_2, Hid'].
    right. apply bool_decide_eq_false_2. congruence. }
  destruct (find (summary_key article_id mode) rows) eqn:Hfound.
  - apply find_update_first_miss. intros row Hrow. split; [apply Hapart, Hrow|].
    apply Hapart. exact Hrow.
  - rewrite find_snoc. destruct (find (summary_key other_id other_mode) rows); [reflexivity|].
    rewrite Hapart; [reflexivity|].
    unfold summary_key. cbn. rewrite !bool_decide_eq_true_2 by reflexivity. reflexivity.
Qed.


(** ** Claims about the persistence pass *)


Lemma new_terms_none article_id jargon_list :
  Forall (fun item => has_term item = false) jargon_list ->
  new_terms article_id jargon_list = [].
Proof.
  unfold new_terms. induction 1 as [|item rest Hitem _ IH]; [reflexivity|].
  cbn. rewrite Hitem. exact IH.
Qed.

(** C10: a non-empty list none of whose items is a dict naming a term
    still triggers the delete and adds nothing, so a pass that goes
    through leaves the article with no stored term. *)
Theorem malformed_terms_erase_jargon fault_of article_id kid_summary pro_summary
    jargon_list veracity_data now db :
  jargon_list <> [] ->
  Forall (fun item => has_term item = false) jargon_list ->
  is_Some (Db.articles db !! article_id) ->
  (forall o, fault_of o = false) ->
  let pass := _save_to_database fault_of article_id kid_summary pro_summary jargon_list
                veracity_data now db in
  pass.2 = Returned () /\ stored_jargon pass.1 article_id = [].
Proof.
  intros Hne Hbad [row Hrow] Hok pass. subst pass.
  rewrite (save_goes_through fault_of _ _ _ _ _ _ row db Hok Hrow).
  split; [reflexivity|]. cbn [fst]. unfold stored_jargon, committed. cbn [Db.article_jargon].
  rewrite (replace_jargon_own article_id jargon_list _ Hne).
  apply new_terms_none, Hbad.
Qed.

(** C9: when the article query finds no row, the pass returns normally
    and the database is exactly as before, whatever the four results
    were. *)
Theorem missing_article_discards_results fault_of article_id kid_summary pro_summary
    jargon_list veracity_data now db :
  Db.articles db !! article_id = None ->
  fault_of Db.QueryArticle = false ->
  _save_to_database fault_of article_id kid_summary pro_summary jargon_list
    veracity_data now db
  = (db, Returned ()).
Proof.
  intros Hnone Hquery.
  destruct (save_cases fault_of article_id kid_summary pro_summary jargon_list
              veracity_data now db)
    as [[Hpass Hwhy]|[[Hpass _]|(row & _ & Hrow & _)]]; cbv zeta in *.
  - destruct Hwhy as [Hf|[[row Hrow] _]]; congruence.
  - exact Hpass.
  - congruence.
Qed.

(** The stored claim list of an article: no pass changes it. *)
Lemma stored_claims_frame fault_of article_id kid_summary pro_summary jargon_list
    veracity_data now db other :
  stored_claims
    (_save_to_database fault_of article_id kid_summary pro_summary jargon_list
       veracity_data now db).1 other
  = stored_claims db other.
Proof.
  destruct (save_cases fault_of article_id kid_summary pro_summary jargon_list
              veracity_data now db)
    as [[Hpass _]|[[Hpass _]|(row & Hpass & Hrow & _)]]; cbv zeta in Hpass;
    rewrite Hpass; cbn [fst]; try reflexivity.
  unfold stored_claims, committed. cbn [Db.articles].
  destruct (decide (other = article_id)) as [->|Hother].
  - rewrite lookup_insert_eq, Hrow. unfold rescored.
    destruct (assessed veracity_data); reflexivity.
  - rewrite lookup_insert_ne by congruence. reflexivity.
Qed.

(** The stored score is overwritten exactly by an assessment. *)
Lemma stored_score_committed article_id kid_summary pro_summary jargon_list
    veracity_data now row db :
  Db.articles db !! article_id = Some row ->
  stored_score
    (committed article_id kid_summary pro_summary jargon_list veracity_data now row db)
    article_id
  = if assessed veracity_data then veracity_score veracity_data
    else stored_score db article_id.
Proof.
  intros Hrow. unfold stored_score, committed, rescored. cbn [Db.articles].
  rewrite lookup_insert_eq, Hrow. destruct (assessed veracity_data); reflexivity.
Qed.

(** ** The worked scenario *)

Example sample_lookup : Db.articles sample_db !! "a1" = Some sample_article.
Proof. reflexivity. Qed.

Example sample_end_to_end :
  let r := process_article (sample_world no_faults) sample_message sample_db in
  result r = Returned () /\
  stored_summary (db_after r) "a1" "kid" = Some "summary for kid" /\
  stored_summary (db_after r) "a1" "pro" = Some "summary for pro" /\
  stored_jargon (db_after r) "a1" = [jargon_row "a1" mrna] /\
  stored_score (db_after r) "a1" = Some 0 /\
  trace r = [Dispatched KidSummary; Dispatched ProSummary; Dispatched JargonExtraction;
             Dispatched VeracityCheck;
             Requested {| query := "Vaccine causes X"; languageCode := "en" |}].
Proof. vm_compute. repeat split. Qed.


Lemma malformed_terms_erase_jargon_witness :
  let pass := _save_to_database no_faults "a1" None None [JStr "mRNA"; JObj []]
                no_veracity 7 sample_db in
  stored_jargon sample_db "a1" = [old_term "a1" "RNA"] /\
  pass.2 = Returned () /\ stored_jargon pass.1 "a1" = [].
Proof.
  split; [reflexivity|].
  apply (malformed_terms_erase_jargon no_faults "a1" None None [JStr "mRNA"; JObj []]
           no_veracity 7 sample_db).
  - discriminate.
  - repeat constructor.
  - exists sample_article. reflexivity.
  - intros o. reflexivity.
Defined.

Lemma missing_article_discards_results_witness :
  _save_to_database no_faults "a9" (Some "kid text") (Some "pro text") [mrna]
    assessment 7 sample_db
  = (sample_db, Returned ()).
Proof.
  apply (missing_article_discards_results no_faults "a9"); reflexivity.
Defined.

(** C7 (code departs from the claim): an assessment overwrites the
    stored score, but the claim list and the check time are assigned to
    attributes of the loaded object that no column maps, so the stored
    claim list of every article is the same after any pass as before
    it.  Here: the score of [a1] becomes 0, its stored claims stay
    empty. *)
Theorem veracity_claims_never_stored :
  (forall fault_of article_id kid_summary pro_summary jargon_list veracity_data now db other,
     stored_claims
       (_save_to_database fault_of article_id kid_summary pro_summary jargon_list
          veracity_data now db).1 other
     = stored_claims db other) /\
  (let pass := _save_to_database no_faults "a1" None None [] assessment 7 sample_db in
   pass.2 = Returned () /\
   stored_score pass.1 "a1" = Some 0 /\
   stored_claims pass.1 "a1" = Some []).
Proof.
  split; [apply stored_claims_frame|].
  vm_compute. repeat split.
Qed.

(** A neutral result leaves the whole article row alone; an assessment
    sets the stored score. *)
Lemma veracity_update_guard fault_of article_id kid_summary pro_summary jargon_list
    veracity_data now db :
  let db' := (_save_to_database fault_of article_id kid_summary pro_summary jargon_list
                veracity_data now db).1 in
  (assessed veracity_data = false -> Db.articles db' = Db.articles db) /\
  (assessed veracity_data = true -> is_Some (Db.articles db !! article_id) ->
   (forall o, fault_of o = false) ->
   stored_score db' article_id = veracity_score veracity_data).
Proof.
  intros db'. subst db'. split.
  - intros Hneutral.
    destruct (save_cases fault_of article_id kid_summary pro_summary jargon_list
                veracity_data now db)
      as [[Hpass _]|[[Hpass _]|(row & Hpass & Hrow & _)]]; cbv zeta in Hpass;
      rewrite Hpass; cbn [fst]; try reflexivity.
    unfold committed, rescored. cbn [Db.articles]. rewrite Hneutral.
    apply insert_id, Hrow.
  - intros Hassessed [row Hrow] Hok.
    rewrite (save_goes_through fault_of _ _ _ _ _ _ row db Hok Hrow). cbn [fst].
    rewrite stored_score_committed by exact Hrow. rewrite Hassessed. reflexivity.
Qed.

(** ** Claims about the consumer *)

Lemma save_raised_unchanged fault_of article_id kid_summary pro_summary jargon_list
    veracity_data now db e :
  (_save_to_database fault_of article_id kid_summary pro_summary jargon_list
     veracity_data now db).2 = Raised e ->
  (_save_to_database fault_of article_id kid_summary pro_summary jargon_list
     veracity_data now db).1 = db.
Proof.
  destruct (save_cases fault_of article_id kid_summary pro_summary jargon_list
              veracity_data now db)
    as [[Hpass _]|[[Hpass _]|(row & Hpass & _)]]; cbv zeta in Hpass;
    rewrite Hpass; cbn; [reflexivity|reflexivity|discriminate].
Qed.

Lemma process_article_raised w article_data db e :
  result (process_article w article_data db) = Raised e ->
  db_after (process_article w article_data db) = db.
Proof.
  unfold process_article.
  destruct (Msg.id article_data) as [article_id|]; [|discriminate].
  destruct (negb (truthy article_id) || negb (truthy (default "" (Msg.content article_data))));
    [discriminate|].
  destruct (_check_veracity w _ _ []) as [veracity_data sent].
  destruct (handle_results w article_id _ _ _ veracity_data db) as [db' res] eqn:Hsave.
  cbn. intros ->. unfold handle_results in Hsave.
  match type of Hsave with ?call = _ =>
    assert (call.2 = Raised e) as Hres by (rewrite Hsave; reflexivity);
    apply save_raised_unchanged in Hres; rewrite Hsave in Hres; exact Hres
  end.
Qed.

(** C8: when an operation that the pass reaches raises, the pass raises
    and the database is what it was before the pass, earlier commits
    included; a pass that raised, for whatever reason, has written
    nothing; and the loop goes on with the next message from that
    database. *)
Theorem failed_save_rolls_back :
  (forall fault_of article_id kid_summary pro_summary jargon_list veracity_data now db,
     fault_of Db.QueryArticle = true \/
     is_Some (Db.articles db !! article_id) /\
     existsb fault_of (reached_ops kid_summary pro_summary jargon_list) = true ->
     _save_to_database fault_of article_id kid_summary pro_summary jargon_list
       veracity_data now db
     = (db, Raised database_error)) /\
  (forall fault_of article_id kid_summary pro_summary jargon_list veracity_data now db e,
     (_save_to_database fault_of article_id kid_summary pro_summary jargon_list
        veracity_data now db).2 = Raised e ->
     (_save_to_database fault_of article_id kid_summary pro_summary jargon_list
        veracity_data now db).1 = db) /\
  (forall d rest db e,
     running d = true ->
     result (process_article (around d) (message d) db) = Raised e ->
     db_after (process_article (around d) (message d) db) = db /\
     (consume (d :: rest) db).1 = (consume rest db).1).
Proof.
  split; [|split].
  - intros fault_of article_id kid_summary pro_summary jargon_list veracity_data now db Hwhy.
    destruct (save_cases fault_of article_id kid_summary pro_summary jargon_list
                veracity_data now db)
      as [[Hpass _]|[[Hpass [Hq Hnone]]|(row & Hpass & Hrow & Hq & Hops)]];
      cbv zeta in Hpass; [exact Hpass|exfalso..].
    + destruct Hwhy as [Hf|[[row Hrow] _]]; congruence.
    + destruct Hwhy as [Hf|[_ Hf]]; congruence.
  - intros. eapply save_raised_unchanged. eassumption.
  - intros d rest db e Hrunning Hraised.
    pose proof (process_article_raised _ _ _ _ Hraised) as Hsame.
    split; [exact Hsame|].
    cbn [consume]. rewrite Hrunning. cbn [negb]. rewrite Hsame.
    destruct (consume rest db). reflexivity.
Qed.

Lemma failed_save_rolls_back_witness :
  let failing := {| message := sample_message; running := true;
                    around := sample_world commit_fails |} in
  let fine := {| message := sample_message; running := true;
                 around := sample_world no_faults |} in
  result (process_article (around failing) (message failing) sample_db)
  = Raised database_error /\
  db_after (process_article (around failing) (message failing) sample_db) = sample_db /\
  (consume [failing; fine] sample_db).1 = (consume [fine] sample_db).1.
Proof.
  intros failing fine. split; [reflexivity|].
  exact (proj2 (proj2 failed_save_rolls_back) failing [fine] sample_db database_error
           eq_refl eq_refl).
Defined.

(** C5: a message without an id, or without content, is dropped before
    anything is dispatched: the database is as before, nothing was
    started or requested, the call returns, and the loop goes on with
    the next message. *)
Theorem invalid_event_dropped w article_data db :
  truthy_opt (Msg.id article_data) = false \/
  truthy_opt (Msg.content article_data) = false ->
  process_article w article_data db
  = {| db_after := db; trace := []; result := Returned () |} /\
  forall rest,
    consume ({| message := article_data; running := true; around := w |} :: rest) db
    = consume rest db.
Proof.
  intros Hmissing.
  assert (process_article w article_data db
          = {| db_after := db; trace := []; result := Returned () |}) as Hdrop.
  { unfold process_article.
    destruct (Msg.id article_data) as [article_id|]; [|reflexivity].
    destruct (Msg.content article_data) as [content|]; cbn in *.
    - destruct Hmissing as [-> | ->]; [reflexivity|]. rewrite orb_true_r. reflexivity.
    - rewrite orb_true_r. reflexivity. }
  split; [exact Hdrop|].
  intros rest. cbn [consume running negb message around]. rewrite Hdrop.
  cbn [db_after trace]. destruct (consume rest db). reflexivity.
Qed.

Lemma invalid_event_dropped_witness :
  let no_content := {| Msg.id := Some "a1"; Msg.title := Some "t"; Msg.content := None |} in
  process_article (sample_world no_faults) no_content sample_db
  = {| db_after := sample_db; trace := []; result := Returned () |} /\
  forall rest,
    consume ({| message := no_content; running := true;
                around := sample_world no_faults |} :: rest) sample_db
    = consume rest sample_db.
Proof.
  intros no_content.
  apply (invalid_event_dropped (sample_world no_faults) no_content sample_db).
  right. reflexivity.
Defined.

(** The wrappers of the two Gemini calls turn an exception of the
    service into the neutral value themselves. *)
Lemma _generate_summary_never_raises w content mode :
  _generate_summary w content mode
  = Returned match generate_summary (gemini_service w) content mode with
             | Returned summary => Some summary
             | Raised _ => None
             end.
Proof.
  unfold _generate_summary, try_except.
  destruct (generate_summary _ content mode); reflexivity.
Qed.

Lemma _extract_jargon_never_raises w content :
  _extract_jargon w content
  = Returned match extract_jargon (gemini_service w) content with
             | Returned (JArr items) => items
             | _ => []
             end.
Proof.
  unfold _extract_jargon, try_except.
  destruct (extract_jargon _ content) as [[]|]; reflexivity.
Qed.




(** * Further properties of the scorer *)

Lemma lower_char_idem c : lower_char (lower_char c) = lower_char c.
Proof. destruct c as [[] [] [] [] [] [] [] []]; reflexivity. Qed.

Lemma lower_idem s : lower (lower s) = lower s.
Proof.
  induction s as [|c s IH]; [reflexivity|].
  cbn [lower]. rewrite lower_char_idem, IH. reflexivity.
Qed.

(** X2: Lower-casing a rating first does not change its score: the buckets
    do not see the case of the letters. *)
Theorem rating_score_ignores_case rating :
  _rating_to_score (lower rating) = _rating_to_score rating.
Proof. unfold _rating_to_score. rewrite lower_idem. reflexivity. Qed.

Lemma rating_score_cases rating :
  match _rating_to_score rating with
  | None => True
  | Some s => s = 0 \/ s = 20 \/ s = 50 \/ s = 100
  end.
Proof.
  unfold _rating_to_score.
  destruct (any_in ["true"; "accurate"; "correct"; "verified"] (lower rating)) eqn:Htrue;
    [auto|].
  destruct (any_in ["mostly true"; "mostly accurate"; "largely true"] (lower rating)) eqn:Hmostly.
  { apply mostly_true_row_shadowed in Hmostly. congruence. }
  repeat match goal with |- context [if ?b then _ else _] => destruct b end; auto.
Qed.

(** X1: The only scores a rating can get are 0, 20, 50 and 100. *)
Theorem rating_score_values rating :
  match _rating_to_score rating with
  | None => True
  | Some s => s = 0 \/ s = 20 \/ s = 50 \/ s = 100
  end.
Proof. apply rating_score_cases. Qed.

Lemma any_in_true_of_contains word words s :
  In word words -> contains word s = true -> any_in words s = true.
Proof.
  intros Hin Hword. unfold any_in. apply existsb_exists. exists word. auto.
Qed.

(** X3: A rating that says "half true", "incorrect" or "inaccurate" is
    caught by the first row, whose words "true", "correct" and
    "accurate" it contains, and scores 100. *)
Theorem rating_negations_score_100 rating :
  any_in ["half true"; "incorrect"; "inaccurate"; "mostly inaccurate"] (lower rating) = true ->
  _rating_to_score rating = Some 100.
Proof.
  intros Hword. unfold _rating_to_score.
  assert (any_in ["true"; "accurate"; "correct"; "verified"] (lower rating) = true) as ->;
    [|reflexivity].
  unfold any_in in Hword. cbn [existsb] in Hword. rewrite orb_false_r in Hword.
  repeat (apply orb_true_iff in Hword as [Hword|Hword]).
  - apply (any_in_true_of_contains "true"); [cbn; auto|].
    apply (contains_app_r "half " "true"), Hword.
  - apply (any_in_true_of_contains "correct"); [cbn; auto|].
    apply (contains_app_r "in" "correct"), Hword.
  - apply (any_in_true_of_contains "accurate"); [cbn; auto|].
    apply (contains_app_r "in" "accurate"), Hword.
  - apply (any_in_true_of_contains "accurate"); [cbn; auto|].
    apply (contains_app_r "mostly in" "accurate"), Hword.
Qed.

Lemma rating_negations_score_100_witness :
  _rating_to_score "Incorrect" = Some 100 /\ _rating_to_score "Half True" = Some 100.
Proof.
  split; apply rating_negations_score_100; reflexivity.
Defined.

Lemma round_div_bounds a b hi :
  0 < b -> 0 <= a <= hi * b -> 0 <= round_div a b <= hi.
Proof.
  intros Hb Ha. unfold round_div.
  pose proof (Z.div_mod a b ltac:(lia)) as Hdm.
  pose proof (Z.mod_pos_bound a b Hb) as Hr.
  assert (0 <= a / b) by (apply Z.div_pos; lia).
  assert (a / b <= hi) by (apply Z.div_le_upper_bound; lia).
  assert (a / b = hi -> a mod b = 0) by nia.
  repeat case_match; lia.
Qed.

Lemma processed_scores_bounds found :
  let scores := numeric_scores (processed <$> found) in
  0 <= sum_scores scores <= 100 * Z.of_nat (length scores).
Proof.
  induction found as [|claim found IH]; cbn -[_rating_to_score Z.mul]; [lia|].
  unfold numeric_scores in *. cbn -[_rating_to_score Z.mul Z.of_nat].
  pose proof (rating_score_cases
                (default "" (Api.textualRating
                   (default Api.no_review (head (Api.claimReview claim)))))) as Hvalue.
  destruct (_rating_to_score _) as [s|]; [|exact IH].
  unfold sum_scores in IH. cbn [foldr length]. rewrite Nat2Z.inj_succ. lia.
Qed.

(** X4: The aggregate score, when there is one, lies between 0 and 100. *)
Theorem veracity_score_within_bounds data m :
  veracity_score (_process_response data) = Some m -> 0 <= m <= 100.
Proof.
  destruct (_process_response_unfold data) as [Hclaims Hscore]. cbv zeta in Hclaims, Hscore.
  rewrite Hscore, Hclaims. clear Hscore Hclaims.
  set (found := take 5 (default [] (Api.claims data))).
  pose proof (processed_scores_bounds found) as Hsum. cbv zeta in Hsum.
  destruct (0 <? _) eqn:Hpos; [|discriminate].
  apply Z.ltb_lt in Hpos. intros [= <-].
  apply round_div_bounds; lia.
Qed.

Lemma veracity_score_within_bounds_witness :
  0 <= 33 <= 100.
Proof.
  refine (veracity_score_within_bounds
           {| Api.claims := Some (
                (fun r => {| Api.text := None; Api.claimant := None;
                             Api.claimReview :=
                               [ {| Api.textualRating := Some r;
                                    Api.publisher_of := None; Api.url := None |} ] |})
                <$> ["True"; "False"; "Fake"]) |} 33 _).
  reflexivity.
Defined.

Lemma _process_response_shape data :
  match default [] (Api.claims data) with
  | [] => _process_response data = failed_check "no_matching_claims"
  | _ :: _ =>
      status (_process_response data) = Some "success" /\
      claims (_process_response data) <> [] /\
      assessed (_process_response data) = true
  end.
Proof.
  destruct (_process_response_unfold data) as [Hclaims _]. cbv zeta in Hclaims.
  unfold assessed. rewrite Hclaims.
  unfold _process_response.
  destruct (default [] (Api.claims data)) as [|claim rest]; [reflexivity|].
  split; [reflexivity|]. cbn [take fmap list_fmap].
  split; [discriminate|].
  rewrite (bool_decide_eq_true_2 (_ :: _ ≠ [])) by discriminate. apply orb_true_r.
Qed.

(** X5: A response with claims always gives a result that counts as an
    assessment, with status success and a non-empty claim list, score or
    no score; a response without claims gives the neutral result with
    status no_matching_claims. *)
Theorem response_with_claims_is_assessment data :
  match default [] (Api.claims data) with
  | [] => _process_response data = failed_check "no_matching_claims"
  | _ :: _ =>
      status (_process_response data) = Some "success" /\
      claims (_process_response data) <> [] /\
      assessed (_process_response data) = true
  end.
Proof. apply _process_response_shape. Qed.

(** X6: [check_claim] sends at most one request, and none without a key;
    the request carries the text cut to 200 characters; and unless the
    result has status success it has neither a score nor a claim. *)
Theorem check_claim_fails_soft key endpoint_of text language sent :
  let r := {| query := slice_to 200 text; languageCode := language |} in
  let '(answer, sent') := check_claim key endpoint_of text language sent in
  (if truthy_opt key then sent' = sent ++ [r]
   else sent' = sent /\ answer = failed_check "no_api_key") /\
  (status answer <> Some "success" ->
   veracity_score answer = None /\ claims answer = []).
Proof.
  intros r. destruct (truthy_opt key) eqn:Hkey.
  - rewrite (check_claim_with_key key endpoint_of text language sent Hkey). cbv zeta.
    fold r. split; [reflexivity|].
    destruct (endpoint_of sent r) as [code body|e]; [|cbn; auto].
    unfold interpret.
    assert (forall reason, status (failed_check reason) <> Some "success" ->
              veracity_score (failed_check reason) = None /\
              claims (failed_check reason) = []) as Hfailed by (cbn; auto).
    assert (forall data, status (_process_response data) <> Some "success" ->
              veracity_score (_process_response data) = None /\
              claims (_process_response data) = []) as Hok.
    { intros data Hstatus.
      pose proof (_process_response_shape data) as Haux.
      destruct (default [] (Api.claims data)); [rewrite Haux; cbn; auto|].
      destruct Haux as [Hs _]. congruence. }
    destruct code as [|p|p]; try apply Hfailed.
    repeat (destruct p as [p|p|]; try apply Hfailed).
    all: destruct body; try apply Hfailed; apply Hok.
  - unfold check_claim. rewrite Hkey. cbn. auto.
Qed.

(** * Further properties of the consumer *)

(** The veracity check with a key configured, answer and requests. *)
Lemma _check_veracity_with_key w title content :
  truthy_opt (api_key w) = true ->
  let primary := {| query := slice_to 200 title; languageCode := "en" |} in
  let fallback := {| query := slice_to 200 (upto "." content); languageCode := "en" |} in
  let first_answer := interpret (remote w [] primary) in
  let again :=
    bool_decide (status first_answer = Some "no_matching_claims") && truthy content in
  _check_veracity w title content []
  = (Returned (if again then interpret (remote w [primary] fallback) else first_answer),
     primary :: (if again then [fallback] else [])).
Proof.
  intros Hkey primary fallback first_answer again.
  unfold _check_veracity. unfold mbind at 1. unfold client_bind.
  rewrite (check_claim_with_key _ _ _ _ _ Hkey). cbv zeta.
  fold primary first_answer again.
  destruct again; [|reflexivity].
  destruct (split_first "." content) as [pieces ->].
  unfold mbind, client_bind, mret, client_ret.
  rewrite (check_claim_with_key _ _ _ _ _ Hkey). cbv zeta.
  rewrite slice_to_idem. reflexivity.
Qed.

Lemma _check_veracity_without_key w title content sent :
  truthy_opt (api_key w) = false ->
  _check_veracity w title content sent = (Returned (failed_check "no_api_key"), sent).
Proof.
  intros Hkey. unfold _check_veracity, check_claim. rewrite Hkey. reflexivity.
Qed.

(** X7: With a key configured, the result of the check is the answer to the
    second query whenever a second query is made, whatever that answer
    is, and the answer to the first otherwise; the second query reaches
    the endpoint after the first. *)
Theorem veracity_check_answer w title content :
  truthy_opt (api_key w) = true ->
  let primary := {| query := slice_to 200 title; languageCode := "en" |} in
  let fallback := {| query := slice_to 200 (upto "." content); languageCode := "en" |} in
  let first_answer := (check_claim (api_key w) (remote w) title "en" []).1 in
  (_check_veracity w title content []).1
  = Returned
      (if bool_decide (status first_answer = Some "no_matching_claims") && truthy content
       then (check_claim (api_key w) (remote w) (upto "." content) "en" [primary]).1
       else first_answer).
Proof.
  intros Hkey primary fallback first_answer.
  rewrite (_check_veracity_with_key w title content Hkey). cbv zeta.
  unfold first_answer.
  rewrite !(check_claim_with_key _ _ _ _ _ Hkey). reflexivity.
Qed.

Lemma veracity_check_answer_witness :
  let w := {| gemini_service :=
                {| generate_summary := fun _ _ => Returned "summary";
                   extract_jargon := fun _ => Returned (JArr []) |};
              api_key := Some "key";
              remote := fun sent _ =>
                          match sent with
                          | [] => Response 200 (Some {| Api.claims := None |})
                          | _ => Response 500 None
                          end;
              faults := no_faults;
              utcnow := 0 |} in
  (_check_veracity w "Title" "One. Two." []).1 = Returned (failed_check "error").
Proof.
  intros w. exact (veracity_check_answer w "Title" "One. Two." eq_refl).
Defined.

(** X8: Without a key the check sends nothing and returns the neutral
    result with status no_api_key, so the pass that follows leaves the
    article's row as it is. *)
Theorem veracity_check_without_key w title content sent fault_of article_id
    kid_summary pro_summary jargon_list now db :
  truthy_opt (api_key w) = false ->
  let '(answer, sent') := _check_veracity w title content sent in
  sent' = sent /\
  answer = Returned (failed_check "no_api_key") /\
  Db.articles
    (_save_to_database fault_of article_id kid_summary pro_summary jargon_list
       (failed_check "no_api_key") now db).1
  = Db.articles db.
Proof.
  intros Hkey. rewrite (_check_veracity_without_key w title content sent Hkey).
  split; [reflexivity|]. split; [reflexivity|].
  destruct (save_cases fault_of article_id kid_summary pro_summary jargon_list
              (failed_check "no_api_key") now db)
    as [[Hpass _]|[[Hpass _]|(row & Hpass & Hrow & _)]]; cbv zeta in Hpass;
    rewrite Hpass; cbn [fst]; try reflexivity.
  unfold committed. cbn [Db.articles]. apply insert_id, Hrow.
Qed.

Lemma veracity_check_without_key_witness :
  let w := {| gemini_service :=
                {| generate_summary := fun _ _ => Returned "summary";
                   extract_jargon := fun _ => Returned (JArr []) |};
              api_key := None;
              remote := one_false_claim;
              faults := no_faults;
              utcnow := 0 |} in
  _check_veracity w "Title" "One. Two." []
  = (Returned (failed_check "no_api_key"), []).
Proof.
  intros w.
  pose proof (veracity_check_without_key w "Title" "One. Two." [] no_faults "a1"
                None None [] 0 sample_db eq_refl) as H.
  destruct (_check_veracity w "Title" "One. Two." []) as [answer sent'].
  destruct H as (-> & -> & _). reflexivity.
Defined.

Lemma startswith_slice_to n s : startswith (slice_to n s) s = true.
Proof.
  revert s. induction n as [|n IH]; intros [|c s]; cbn; try reflexivity.
  rewrite decide_True by reflexivity. apply IH.
Qed.

Lemma startswith_slice_upto n sep s : startswith (slice_to n (upto sep s)) s = true.
Proof.
  revert n. induction s as [|c s IH]; intros [|n]; cbn; try reflexivity.
  destruct (decide (c = sep)); cbn; [reflexivity|].
  rewrite decide_True by reflexivity. apply IH.
Qed.

Lemma slice_upto_free_of_sep n sep s :
  contains (String sep "") (slice_to n (upto sep s)) = false.
Proof.
  revert n. induction s as [|c s IH]; intros [|n]; cbn; try reflexivity.
  destruct (decide (c = sep)) as [Heq|Hne]; cbn; [reflexivity|].
  rewrite decide_False by congruence. cbn. apply IH.
Qed.

(** X9: Every request the veracity check sends asks in English for at most
    200 characters that are the beginning of the title or the beginning
    of the content; what is taken from the content stops before its
    first full stop. *)
Theorem veracity_check_request_shape w title content :
  Forall (fun r =>
            (String.length (query r) <= 200)%nat /\
            languageCode r = "en" /\
            (startswith (query r) title = true \/
             startswith (query r) content = true /\ contains "." (query r) = false))
    (_check_veracity w title content []).2.
Proof.
  destruct (truthy_opt (api_key w)) eqn:Hkey.
  - rewrite (_check_veracity_with_key w title content Hkey). cbv zeta. cbn [snd].
    constructor.
    + cbn [query languageCode]. split; [apply slice_to_length|]. split; [reflexivity|].
      left. apply startswith_slice_to.
    + destruct (_ && _); constructor; [|constructor].
      cbn [query languageCode]. split; [apply slice_to_length|]. split; [reflexivity|].
      right. split; [apply startswith_slice_upto|apply slice_upto_free_of_sep].
  - rewrite (_check_veracity_without_key w title content [] Hkey). constructor.
Qed.

(** * Further properties of the persistence pass *)

Lemma filter_update_first_hit {A} (p : A -> bool) (f : A -> A) rows :
  (forall row, p row = true -> p (f row) = true) ->
  List.filter p (update_first p f rows)
  = match List.filter p rows with
    | [] => []
    | first :: rest => f first :: rest
    end.
Proof.
  intros Hkeep. induction rows as [|row rows IH]; [reflexivity|]. cbn.
  destruct (p row) eqn:Hp; cbn.
  - rewrite (Hkeep row Hp). reflexivity.
  - rewrite Hp. exact IH.
Qed.

Lemma filter_update_first_miss {A} (p q : A -> bool) (f : A -> A) rows :
  (forall row, p row = true -> q row = false /\ q (f row) = false) ->
  List.filter q (update_first p f rows) = List.filter q rows.
Proof.
  intros Hapart. induction rows as [|row rows IH]; [reflexivity|]. cbn.
  destruct (p row) eqn:Hp; cbn.
  - destruct (Hapart row Hp) as [-> ->]. reflexivity.
  - destruct (q row); [f_equal|]; exact IH.
Qed.

Lemma find_head_filter {A} (p : A -> bool) rows : find p rows = head (List.filter p rows).
Proof.
  induction rows as [|row rows IH]; [reflexivity|]. cbn.
  destruct (p row); [reflexivity|exact IH].
Qed.

Lemma length_update_first {A} (p : A -> bool) (f : A -> A) rows :
  length (update_first p f rows) = length rows.
Proof.
  induction rows as [|row rows IH]; [reflexivity|]. cbn.
  destruct (p row); cbn; [reflexivity|]. rewrite IH. reflexivity.
Qed.

Lemma summary_keys_apart article_id mode other_id other_mode row :
  (other_id, other_mode) <> (article_id, mode) ->
  summary_key article_id mode row = true ->
  summary_key other_id other_mode row = false.
Proof.
  unfold summary_key. intros Hne Hrow.
  apply andb_true_iff in Hrow as [Hid Hmode].
  apply bool_decide_eq_true in Hid, Hmode.
  apply andb_false_iff.
  destruct (decide (Db.s_article_id row = other_id)) as [Hid'|Hid'];
    [|left; apply bool_decide_eq_false_2, Hid'].
  right. apply bool_decide_eq_false_2. congruence.
Qed.

(** The rows of a key after an upsert of that key: the first is
    rewritten, or, if there was none, there is now exactly one. *)
Lemma upsert_summary_rows article_id mode text now rows :
  List.filter (summary_key article_id mode)
    (upsert_summary article_id mode (Some text) now rows)
  = if truthy text then
      match List.filter (summary_key article_id mode) rows with
      | [] => [ {| Db.s_article_id := article_id; Db.mode := mode;
                   Db.summary := text; Db.generated_at := now |} ]
      | first :: rest => rewritten text now first :: rest
      end
    else List.filter (summary_key article_id mode) rows.
Proof.
  unfold upsert_summary. cbn [truthy_opt default].
  destruct (truthy text); [|reflexivity].
  rewrite find_head_filter.
  destruct (List.filter (summary_key article_id mode) rows) as [|first rest] eqn:Hrows;
    cbn [head].
  - rewrite List.filter_app, Hrows. cbn. unfold summary_key at 1. cbn.
    rewrite !bool_decide_eq_true_2 by reflexivity. reflexivity.
  - rewrite filter_update_first_hit, Hrows; [reflexivity|]. intros row Hrow. exact Hrow.
Qed.

Lemma upsert_summary_rows_other article_id mode text now other_id other_mode rows :
  (other_id, other_mode) <> (article_id, mode) ->
  List.filter (summary_key other_id other_mode) (upsert_summary article_id mode text now rows)
  = List.filter (summary_key other_id other_mode) rows.
Proof.
  intros Hne. unfold upsert_summary.
  destruct (truthy_opt text); [|reflexivity].
  destruct (find (summary_key article_id mode) rows).
  - apply filter_update_first_miss. intros row Hrow.
    split; apply (summary_keys_apart article_id mode); auto.
  - rewrite List.filter_app. cbn.
    rewrite (summary_keys_apart article_id mode other_id other_mode); [apply app_nil_r|auto|].
    unfold summary_key. cbn. rewrite !bool_decide_eq_true_2 by reflexivity. reflexivity.
Qed.

Lemma upsert_summary_upserted article_id mode text now rows :
  List.filter (summary_key article_id mode) (upsert_summary article_id mode text now rows)
  = upserted_rows article_id mode text now (List.filter (summary_key article_id mode) rows).
Proof.
  unfold upserted_rows. destruct text as [text|]; cbn [truthy_opt default].
  - rewrite upsert_summary_rows. reflexivity.
  - reflexivity.
Qed.

Lemma committed_summary_rows article_id kid_summary pro_summary jargon_list
    veracity_data now row db :
  let db' := committed article_id kid_summary pro_summary jargon_list veracity_data
               now row db in
  summary_rows db' article_id "kid"
  = upserted_rows article_id "kid" kid_summary now (summary_rows db article_id "kid") /\
  summary_rows db' article_id "pro"
  = upserted_rows article_id "pro" pro_summary now (summary_rows db article_id "pro") /\
  forall other_id other_mode,
    (other_id, other_mode) <> (article_id, "kid") ->
    (other_id, other_mode) <> (article_id, "pro") ->
    summary_rows db' other_id other_mode = summary_rows db other_id other_mode.
Proof.
  intros db'. subst db'. unfold summary_rows, committed. cbn [Db.article_summaries].
  split; [|split].
  - rewrite upsert_summary_rows_other by (intros [=]). apply upsert_summary_upserted.
  - rewrite upsert_summary_upserted, upsert_summary_rows_other by (intros [=]). reflexivity.
  - intros other_id other_mode Hkid Hpro.
    rewrite !upsert_summary_rows_other by assumption. reflexivity.
Qed.

Lemma committed_article article_id kid_summary pro_summary jargon_list veracity_data
    now row db :
  Db.articles
    (committed article_id kid_summary pro_summary jargon_list veracity_data now row db)
    !! article_id
  = Some (rescored veracity_data row).
Proof. unfold committed. cbn [Db.articles]. apply lookup_insert_eq. Qed.

(** X10: A pass that goes through rewrites the first stored row of each mode
    it has a text for, text and time, or adds the row when there is
    none; it adds at most that one row per mode and touches no row of
    another article or mode. *)
Theorem summary_upsert_in_place fault_of article_id kid_summary pro_summary jargon_list
    veracity_data now db :
  is_Some (Db.articles db !! article_id) ->
  (forall o, fault_of o = false) ->
  let db' := (_save_to_database fault_of article_id kid_summary pro_summary jargon_list
                veracity_data now db).1 in
  summary_rows db' article_id "kid"
  = upserted_rows article_id "kid" kid_summary now (summary_rows db article_id "kid") /\
  summary_rows db' article_id "pro"
  = upserted_rows article_id "pro" pro_summary now (summary_rows db article_id "pro") /\
  forall other_id other_mode,
    (other_id, other_mode) <> (article_id, "kid") ->
    (other_id, other_mode) <> (article_id, "pro") ->
    summary_rows db' other_id other_mode = summary_rows db other_id other_mode.
Proof.
  intros [row Hrow] Hok db'. subst db'.
  rewrite (save_goes_through fault_of _ _ _ _ _ _ row db Hok Hrow). cbn [fst].
  apply committed_summary_rows.
Qed.

Lemma summary_upsert_in_place_witness :
  let db' := (_save_to_database no_faults "a1" (Some "for kids") None [] no_veracity 7
                sample_db).1 in
  summary_rows db' "a1" "kid"
  = [ {| Db.s_article_id := "a1"; Db.mode := "kid"; Db.summary := "for kids";
         Db.generated_at := 7 |} ].
Proof.
  exact (proj1 (summary_upsert_in_place no_faults "a1" (Some "for kids") None []
                  no_veracity 7 sample_db
                  (ex_intro _ sample_article eq_refl) (fun _ => eq_refl))).
Defined.

(** X11: Two passes in a row for an article with no stored summary of a
    mode leave exactly one row for that mode, holding the text and the
    time of the second pass. *)
Theorem summary_upsert_twice fault_of article_id first_kid second_kid
    pro1 pro2 jargon1 jargon2 veracity1 veracity2 now1 now2 db :
  is_Some (Db.articles db !! article_id) ->
  (forall o, fault_of o = false) ->
  truthy first_kid = true -> truthy second_kid = true ->
  summary_rows db article_id "kid" = [] ->
  let db1 := (_save_to_database fault_of article_id (Some first_kid) pro1 jargon1
                veracity1 now1 db).1 in
  let db2 := (_save_to_database fault_of article_id (Some second_kid) pro2 jargon2
                veracity2 now2 db1).1 in
  summary_rows db2 article_id "kid"
  = [ {| Db.s_article_id := article_id; Db.mode := "kid"; Db.summary := second_kid;
         Db.generated_at := now2 |} ].
Proof.
  intros [row Hrow] Hok Hfirst Hsecond Hnone db1 db2. subst db2 db1.
  rewrite (save_goes_through fault_of _ _ _ _ _ _ row db Hok Hrow). cbn [fst].
  rewrite (save_goes_through fault_of _ _ _ _ _ _ _ _ Hok (committed_article _ _ _ _ _ _ _ _)).
  cbn [fst].
  rewrite (proj1 (committed_summary_rows _ _ _ _ _ _ _ _)).
  rewrite (proj1 (committed_summary_rows _ _ _ _ _ _ _ _)).
  rewrite Hnone. unfold upserted_rows. cbn [truthy_opt default].
  rewrite Hfirst, Hsecond. reflexivity.
Qed.

Lemma summary_upsert_twice_witness :
  let db1 := (_save_to_database no_faults "a1" (Some "first") None [] no_veracity 7
                sample_db).1 in
  let db2 := (_save_to_database no_faults "a1" (Some "second") None [] no_veracity 9 db1).1 in
  summary_rows db2 "a1" "kid"
  = [ {| Db.s_article_id := "a1"; Db.mode := "kid"; Db.summary := "second";
         Db.generated_at := 9 |} ].
Proof.
  exact (summary_upsert_twice no_faults "a1" "first" "second" None None [] []
           no_veracity no_veracity 7 9 sample_db
           (ex_intro _ sample_article eq_refl) (fun _ => eq_refl) eq_refl eq_refl eq_refl).
Defined.

Lemma update_first_app_l {A} (p : A -> bool) (f : A -> A) rows more :
  find p rows <> None -> update_first p f (rows ++ more) = update_first p f rows ++ more.
Proof.
  induction rows as [|row rows IH]; cbn; [congruence|].
  destruct (p row); [reflexivity|]. intros Hfound. rewrite IH by exact Hfound. reflexivity.
Qed.

Lemma update_first_app_r {A} (p : A -> bool) (f : A -> A) rows more :
  find p rows = None -> update_first p f (rows ++ more) = rows ++ update_first p f more.
Proof.
  induction rows as [|row rows IH]; cbn; [reflexivity|].
  destruct (p row); [discriminate|]. intros Hnone. rewrite IH by exact Hnone. reflexivity.
Qed.

Lemma update_first_twice {A} (p : A -> bool) (f g : A -> A) rows :
  (forall row, p row = true -> p (f row) = true) ->
  update_first p g (update_first p f rows) = update_first p (fun row => g (f row)) rows.
Proof.
  intros Hkeep. induction rows as [|row rows IH]; [reflexivity|]. cbn.
  destruct (p row) eqn:Hp; cbn.
  - rewrite (Hkeep row Hp). reflexivity.
  - rewrite Hp, IH. reflexivity.
Qed.

Lemma update_first_ext {A} (p : A -> bool) (f g : A -> A) rows :
  (forall row, f row = g row) -> update_first p f rows = update_first p g rows.
Proof.
  intros Hext. induction rows as [|row rows IH]; [reflexivity|]. cbn.
  rewrite Hext, IH. reflexivity.
Qed.

Lemma update_first_comm {A} (p q : A -> bool) (f g : A -> A) rows :
  (forall row, p row = true -> q row = false /\ q (f row) = false) ->
  (forall row, q row = true -> p row = false /\ p (g row) = false) ->
  update_first p f (update_first q g rows) = update_first q g (update_first p f rows).
Proof.
  intros Hp Hq. induction rows as [|row rows IH]; [reflexivity|]. cbn.
  destruct (q row) eqn:Hqrow.
  - destruct (Hq row Hqrow) as [Hprow Hpg]. rewrite Hprow. cbn.
    rewrite Hpg, Hqrow. reflexivity.
  - destruct (p row) eqn:Hprow; cbn.
    + rewrite Hprow. destruct (Hp row Hprow) as [_ ->]. reflexivity.
    + rewrite Hprow, Hqrow, IH. reflexivity.
Qed.

(** A later upsert of a key overrides an earlier one of the same key. *)
Lemma upsert_summary_override article_id mode text now1 now2 rows :
  upsert_summary article_id mode text now2 (upsert_summary article_id mode text now1 rows)
  = upsert_summary article_id mode text now2 rows.
Proof.
  unfold upsert_summary. destruct (truthy_opt text) eqn:Htext; [|reflexivity].
  set (key := summary_key article_id mode).
  assert (forall t n, key {| Db.s_article_id := article_id; Db.mode := mode;
                             Db.summary := t; Db.generated_at := n |} = true) as Hnew.
  { intros t n. unfold key, summary_key. cbn.
    rewrite !bool_decide_eq_true_2 by reflexivity. reflexivity. }
  destruct (find key rows) as [found|] eqn:Hfound.
  - rewrite find_update_first_hit, Hfound by (intros row Hrow; exact Hrow). cbn.
    rewrite update_first_twice by (intros row Hrow; exact Hrow).
    apply update_first_ext. reflexivity.
  - rewrite find_snoc, Hfound, Hnew.
    rewrite update_first_app_r by exact Hfound. cbn. rewrite Hnew. reflexivity.
Qed.

Lemma upsert_summary_when_stored article_id mode text now rows :
  truthy_opt text = true ->
  find (summary_key article_id mode) rows <> None ->
  upsert_summary article_id mode text now rows
  = update_first (summary_key article_id mode) (rewritten (default "" text) now) rows.
Proof.
  intros Htext Hstored. unfold upsert_summary. rewrite Htext.
  destruct (find (summary_key article_id mode) rows); [reflexivity|congruence].
Qed.

(** An upsert of a key that is stored commutes with an upsert of
    another key. *)
Lemma upsert_summary_comm article_id mode text now other_mode other_text other_now rows :
  mode <> other_mode ->
  find (summary_key article_id mode) rows <> None ->
  upsert_summary article_id mode text now
    (upsert_summary article_id other_mode other_text other_now rows)
  = upsert_summary article_id other_mode other_text other_now
      (upsert_summary article_id mode text now rows).
Proof.
  intros Hmode Hstored.
  assert ((article_id, mode) <> (article_id, other_mode)) as Hne by congruence.
  assert ((article_id, other_mode) <> (article_id, mode)) as Hne' by congruence.
  destruct (truthy_opt text) eqn:Htext.
  2: { rewrite !(upsert_summary_skipped article_id mode text) by exact Htext. reflexivity. }
  rewrite (upsert_summary_when_stored article_id mode text now
             (upsert_summary article_id other_mode other_text other_now rows))
    by (try exact Htext; rewrite upsert_summary_other by exact Hne; exact Hstored).
  rewrite (upsert_summary_when_stored article_id mode text now rows Htext Hstored).
  unfold upsert_summary.
  destruct (truthy_opt other_text); [|reflexivity].
  rewrite find_update_first_miss
    by (intros row Hrow; split; apply (summary_keys_apart article_id mode); auto).
  destruct (find (summary_key article_id other_mode) rows).
  - apply update_first_comm; intros row Hrow; split.
    + apply (summary_keys_apart article_id mode); auto.
    + apply (summary_keys_apart article_id mode); auto.
    + apply (summary_keys_apart article_id other_mode); auto.
    + apply (summary_keys_apart article_id other_mode); auto.
  - apply update_first_app_l. exact Hstored.
Qed.

Lemma upsert_summary_present article_id mode text now rows :
  truthy_opt text = true ->
  find (summary_key article_id mode) (upsert_summary article_id mode text now rows) <> None.
Proof.
  intros Htext Hnone.
  pose proof (upsert_summary_stored article_id mode text now rows Htext) as Hstored.
  rewrite Hnone in Hstored. destruct text; discriminate.
Qed.

Lemma replace_jargon_again article_id jargon_list rows :
  replace_jargon article_id jargon_list (replace_jargon article_id jargon_list rows)
  = replace_jargon article_id jargon_list rows.
Proof.
  unfold replace_jargon. destruct jargon_list as [|item rest]; [reflexivity|].
  rewrite List.filter_app. f_equal.
  set (foreign := fun row => negb (bool_decide (Db.j_article_id row = article_id))).
  assert (List.filter foreign (new_terms article_id (item :: rest)) = []) as ->.
  { unfold new_terms. induction (List.filter has_term (item :: rest)) as [|i items IH];
      [reflexivity|].
    cbn. unfold foreign at 1. cbn. rewrite bool_decide_eq_true_2 by reflexivity. exact IH. }
  rewrite app_nil_r.
  induction rows as [|row rows IH]; [reflexivity|]. cbn.
  destruct (foreign row) eqn:Hrow; cbn; [rewrite Hrow; f_equal|]; exact IH.
Qed.

Lemma rescored_again veracity_data row :
  rescored veracity_data (rescored veracity_data row) = rescored veracity_data row.
Proof. unfold rescored. destruct (assessed veracity_data); reflexivity. Qed.

(** X12: Redelivery: running the pass again with the same four results, at
    a later time, gives the database that the later pass alone would
    have given; with the same time the second pass changes nothing. *)
Theorem redelivered_pass_overwrites fault_of article_id kid_summary pro_summary
    jargon_list veracity_data now1 now2 db :
  is_Some (Db.articles db !! article_id) ->
  (forall o, fault_of o = false) ->
  let pass now := _save_to_database fault_of article_id kid_summary pro_summary
                    jargon_list veracity_data now in
  pass now2 (pass now1 db).1 = pass now2 db.
Proof.
  intros [row Hrow] Hok pass. subst pass. cbv beta.
  rewrite (save_goes_through fault_of _ _ _ _ _ _ row db Hok Hrow). cbn [fst].
  rewrite (save_goes_through fault_of _ _ _ _ _ _ _ _ Hok (committed_article _ _ _ _ _ _ _ _)).
  rewrite (save_goes_through fault_of _ _ _ _ _ _ row db Hok Hrow).
  f_equal. unfold committed. cbn [Db.articles Db.article_summaries Db.article_jargon].
  f_equal.
  - rewrite insert_insert_eq, rescored_again. reflexivity.
  - destruct (truthy_opt kid_summary) eqn:Hkid.
    + rewrite (upsert_summary_comm article_id "kid" kid_summary now2 "pro")
        by (try discriminate; apply upsert_summary_present, Hkid).
      rewrite (upsert_summary_override article_id "kid").
      apply upsert_summary_override.
    + rewrite !(upsert_summary_skipped article_id "kid") by exact Hkid.
      apply upsert_summary_override.
  - apply replace_jargon_again.
Qed.

Lemma redelivered_pass_overwrites_witness :
  let pass now := _save_to_database no_faults "a1" (Some "for kids") (Some "for experts")
                    [mrna] assessment now in
  pass 7 (pass 7 sample_db).1 = pass 7 sample_db.
Proof.
  exact (redelivered_pass_overwrites no_faults "a1" (Some "for kids") (Some "for experts")
           [mrna] assessment 7 7 sample_db
           (ex_intro _ sample_article eq_refl) (fun _ => eq_refl)).
Defined.

Lemma length_upsert_summary article_id mode text now rows :
  (length rows <= length (upsert_summary article_id mode text now rows) <= length rows + 1)%nat.
Proof.
  unfold upsert_summary. destruct (truthy_opt text); [|lia].
  destruct (find _ rows).
  - rewrite length_update_first. lia.
  - rewrite length_app. cbn. lia.
Qed.

Lemma save_frame fault_of article_id kid_summary pro_summary jargon_list
    veracity_data now db :
  let db' := (_save_to_database fault_of article_id kid_summary pro_summary jargon_list
                veracity_data now db).1 in
  dom (Db.articles db') = dom (Db.articles db) /\
  (forall a, Db.title <$> Db.articles db' !! a = Db.title <$> Db.articles db !! a) /\
  (forall a, Db.content <$> Db.articles db' !! a = Db.content <$> Db.articles db !! a) /\
  (forall other, other <> article_id ->
                 Db.articles db' !! other = Db.articles db !! other) /\
  (length (Db.article_summaries db) <= length (Db.article_summaries db')
   <= length (Db.article_summaries db) + 2)%nat.
Proof.
  intros db'. subst db'.
  destruct (save_cases fault_of article_id kid_summary pro_summary jargon_list
              veracity_data now db)
    as [[Hpass _]|[[Hpass _]|(row & Hpass & Hrow & _)]]; cbv zeta in Hpass;
    rewrite Hpass; cbn [fst].
  1,2: repeat split; intros; try reflexivity; lia.
  unfold committed. cbn [Db.articles Db.article_summaries].
  assert (forall a (field : Db.Article -> string),
            field (rescored veracity_data row) = field row ->
            field <$> <[article_id:=rescored veracity_data row]> (Db.articles db) !! a
            = field <$> Db.articles db !! a) as Hfield.
  { intros a field Hsame. destruct (decide (a = article_id)) as [->|Hne].
    - rewrite lookup_insert_eq, Hrow. cbn. rewrite Hsame. reflexivity.
    - rewrite lookup_insert_ne by congruence. reflexivity. }
  split; [apply dom_insert_lookup_L; eauto|].
  split; [intros a; apply Hfield; unfold rescored; destruct (assessed _); reflexivity|].
  split; [intros a; apply Hfield; unfold rescored; destruct (assessed _); reflexivity|].
  split; [intros other Hother; apply lookup_insert_ne; congruence|].
  pose proof (length_upsert_summary article_id "kid" kid_summary now
                (Db.article_summaries db)) as Hkid.
  pose proof (length_upsert_summary article_id "pro" pro_summary now
                (upsert_summary article_id "kid" kid_summary now
                   (Db.article_summaries db))) as Hpro.
  lia.
Qed.

(** X13: Whatever happens in a pass, no article row is created or deleted,
    no title or content changes, the rows of other articles are as
    before, and no summary row is deleted: the summaries table grows by
    two rows at most. *)
Theorem pass_frame fault_of article_id kid_summary pro_summary jargon_list
    veracity_data now db :
  let db' := (_save_to_database fault_of article_id kid_summary pro_summary jargon_list
                veracity_data now db).1 in
  dom (Db.articles db') = dom (Db.articles db) /\
  (forall a, Db.title <$> Db.articles db' !! a = Db.title <$> Db.articles db !! a) /\
  (forall a, Db.content <$> Db.articles db' !! a = Db.content <$> Db.articles db !! a) /\
  (forall other, other <> article_id ->
                 Db.articles db' !! other = Db.articles db !! other) /\
  (length (Db.article_summaries db) <= length (Db.article_summaries db')
   <= length (Db.article_summaries db) + 2)%nat.
Proof. apply save_frame. Qed.

(** * Further properties of the processing of one message and of the loop *)

Lemma _check_veracity_returns w title content :
  (_check_veracity w title content []).1 = Returned (veracity_result w title content).
Proof.
  unfold veracity_result. destruct (truthy_opt (api_key w)) eqn:Hkey.
  - rewrite (_check_veracity_with_key w title content Hkey). reflexivity.
  - rewrite (_check_veracity_without_key w title content [] Hkey). reflexivity.
Qed.

(** A message with an id and content: the pass runs once, on what the
    four subtasks gave. *)
Lemma process_article_valid w article_data db article_id content :
  Msg.id article_data = Some article_id -> truthy article_id = true ->
  Msg.content article_data = Some content -> truthy content = true ->
  let r := process_article w article_data db in
  let title := default "" (Msg.title article_data) in
  (db_after r, result r)
  = _save_to_database (faults w) article_id
      (summary_result w content "kid") (summary_result w content "pro")
      (jargon_result w content) (veracity_result w title content) (utcnow w) db /\
  trace r = [Dispatched KidSummary; Dispatched ProSummary; Dispatched JargonExtraction;
             Dispatched VeracityCheck]
            ++ (Requested <$> (_check_veracity w title content []).2).
Proof.
  intros Hid Hidt Hcontent Hcontentt r title. subst r.
  unfold process_article. rewrite Hid, Hcontent.
  change (default "" (Some content)) with content.
  rewrite Hidt, Hcontentt. cbn [negb orb]. fold title.
  pose proof (_check_veracity_returns w title content) as Hanswer.
  destruct (_check_veracity w title content []) as [answer sent]. cbn [fst snd] in *.
  subst answer.
  rewrite _generate_summary_never_raises, _generate_summary_never_raises,
    _extract_jargon_never_raises.
  unfold handle_results.
  fold (summary_result w content "kid") (summary_result w content "pro")
    (jargon_result w content).
  destruct (_save_to_database _ _ _ _ _ _ _ _) as [db' res]. cbn. auto.
Qed.

Lemma process_article_cases w article_data db :
  process_article w article_data db
  = {| db_after := db; trace := []; result := Returned () |} \/
  exists article_id content,
    Msg.id article_data = Some article_id /\ truthy article_id = true /\
    Msg.content article_data = Some content /\ truthy content = true.
Proof.
  unfold process_article.
  destruct (Msg.id article_data) as [article_id|]; [|left; reflexivity].
  destruct (truthy article_id) eqn:Hid; [|left; reflexivity].
  destruct (Msg.content article_data) as [content|]; [|left; reflexivity].
  change (default "" (Some content)) with content.
  destruct (truthy content) eqn:Hcontent; [|left; reflexivity].
  right. eauto 10.
Qed.



(** X15: The call raises only when a database operation does, with that
    error, and then the database is as it was; no failure of Gemini or
    of the claim search makes it raise. *)
Theorem process_article_raises_only_database_errors w article_data db e :
  result (process_article w article_data db) = Raised e ->
  e = database_error /\
  db_after (process_article w article_data db) = db /\
  exists o, faults w o = true.
Proof.
  intros Hraised.
  destruct (process_article_cases w article_data db)
    as [Hdrop|(article_id & content & Hid & Hidt & Hcontent & Hcontentt)].
  { rewrite Hdrop in Hraised. discriminate. }
  destruct (process_article_valid w article_data db article_id content
              Hid Hidt Hcontent Hcontentt) as [Hpass _].
  cbv zeta in Hpass.
  match type of Hpass with _ = ?call =>
    destruct (save_cases (faults w) article_id (summary_result w content "kid")
                (summary_result w content "pro") (jargon_result w content)
                (veracity_result w (default "" (Msg.title article_data)) content)
                (utcnow w) db)
      as [[Hsave Hwhy]|[[Hsave _]|(row & Hsave & _)]]; cbv zeta in Hsave;
      rewrite Hsave in Hpass; injection Hpass as Hdb Hres
  end; rewrite Hres in Hraised; try discriminate.
  injection Hraised as <-. split; [reflexivity|]. split; [exact Hdb|].
  destruct Hwhy as [Hf|[_ Hf]]; [eauto|].
  apply existsb_exists in Hf as (o & _ & Hf). eauto.
Qed.

Lemma process_article_raises_only_database_errors_witness :
  database_error = database_error /\
  db_after (process_article (sample_world commit_fails) sample_message sample_db)
  = sample_db /\
  exists o, commit_fails o = true.
Proof.
  exact (process_article_raises_only_database_errors (sample_world commit_fails)
           sample_message sample_db database_error eq_refl).
Defined.

Lemma no_items_keep_jargon w article_data db :
  jargon_result w (default "" (Msg.content article_data)) = [] ->
  Db.article_jargon (db_after (process_article w article_data db)) = Db.article_jargon db.
Proof.
  intros Hempty.
  destruct (process_article_cases w article_data db)
    as [Hdrop|(article_id & content & Hid & Hidt & Hcontent & Hcontentt)].
  { rewrite Hdrop. reflexivity. }
  rewrite Hcontent in Hempty. change (default "" (Some content)) with content in Hempty.
  destruct (process_article_valid w article_data db article_id content
              Hid Hidt Hcontent Hcontentt) as [Hpass _].
  cbv zeta in Hpass. rewrite Hempty in Hpass.
  apply (f_equal fst) in Hpass. cbn [fst] in Hpass. rewrite Hpass.
  match goal with |- Db.article_jargon (?call).1 = _ =>
    match call with
    | _save_to_database ?f ?i ?k ?p ?j ?v ?n ?d =>
        destruct (save_cases f i k p j v n d)
          as [[Hsave _]|[[Hsave _]|(row & Hsave & _)]]; cbv zeta in Hsave;
          rewrite Hsave; reflexivity
    end
  end.
Qed.

(** X16: When the extraction raises, or gives something that is not an
    array, or an empty array, the jargon table is the same after the
    message as before it. *)
Theorem failed_extraction_keeps_jargon w article_data db :
  (forall items,
     extract_jargon (gemini_service w) (default "" (Msg.content article_data))
     = Returned (JArr items) -> items = []) ->
  Db.article_jargon (db_after (process_article w article_data db)) = Db.article_jargon db.
Proof.
  intros Hnothing. apply no_items_keep_jargon. unfold jargon_result.
  destruct (extract_jargon (gemini_service w) _) as [[| | | |items|]|]; try reflexivity.
  apply Hnothing. reflexivity.
Qed.

Lemma failed_extraction_keeps_jargon_witness :
  let w := {| gemini_service :=
                {| generate_summary := fun _ _ => Returned "summary";
                   extract_jargon := fun _ => Returned (JObj [("term", JStr "mRNA")]) |};
              api_key := None; remote := one_false_claim;
              faults := no_faults; utcnow := 7 |} in
  Db.article_jargon (db_after (process_article w sample_message sample_db))
  = Db.article_jargon sample_db.
Proof.
  intros w. apply (failed_extraction_keeps_jargon w sample_message sample_db).
  intros items Hitems. discriminate Hitems.
Defined.

Lemma interpret_unsuccessful response :
  status (interpret response) <> Some "success" -> assessed (interpret response) = false.
Proof.
  assert (forall reason, assessed (failed_check reason) = false) as Hfailed by reflexivity.
  assert (forall data, status (_process_response data) <> Some "success" ->
            assessed (_process_response data) = false) as Hdata.
  { intros data Hstatus. pose proof (_process_response_shape data) as Hshape.
    destruct (default [] (Api.claims data)); [rewrite Hshape; reflexivity|].
    destruct Hshape as [Hs _]. congruence. }
  unfold interpret. destruct response as [code body|e]; [|intros _; apply Hfailed].
  destruct code as [|p|p]; try (intros _; apply Hfailed).
  repeat (destruct p as [p|p|]; try (intros _; apply Hfailed)).
  all: destruct body; try (intros _; apply Hfailed); apply Hdata.
Qed.

Lemma veracity_result_unsuccessful w title content :
  status (veracity_result w title content) <> Some "success" ->
  assessed (veracity_result w title content) = false.
Proof.
  unfold veracity_result. destruct (truthy_opt (api_key w)) eqn:Hkey.
  - rewrite (_check_veracity_with_key w title content Hkey). cbv zeta. cbn [fst].
    destruct (_ && _); apply interpret_unsuccessful.
  - rewrite (_check_veracity_without_key w title content [] Hkey). reflexivity.
Qed.

(** X17: Unless the veracity check ends with status success, no article row
    changes while the message is processed: a check that failed or found
    nothing never touches a recorded score. *)
Theorem unsuccessful_check_keeps_articles w article_data db :
  status (veracity_result w (default "" (Msg.title article_data))
            (default "" (Msg.content article_data))) <> Some "success" ->
  Db.articles (db_after (process_article w article_data db)) = Db.articles db.
Proof.
  intros Hstatus.
  destruct (process_article_cases w article_data db)
    as [Hdrop|(article_id & content & Hid & Hidt & Hcontent & Hcontentt)].
  { rewrite Hdrop. reflexivity. }
  rewrite Hcontent in Hstatus. change (default "" (Some content)) with content in Hstatus.
  apply veracity_result_unsuccessful in Hstatus.
  destruct (process_article_valid w article_data db article_id content
              Hid Hidt Hcontent Hcontentt) as [Hpass _].
  cbv zeta in Hpass. apply (f_equal fst) in Hpass. cbn [fst] in Hpass. rewrite Hpass.
  apply veracity_update_guard, Hstatus.
Qed.

Lemma unsuccessful_check_keeps_articles_witness :
  let w := {| gemini_service :=
                {| generate_summary := fun _ _ => Returned "summary";
                   extract_jargon := fun _ => Returned (JArr [mrna]) |};
              api_key := Some "key";
              remote := fun _ _ => Response 403 None;
              faults := no_faults; utcnow := 7 |} in
  Db.articles (db_after (process_article w sample_message sample_db))
  = Db.articles sample_db.
Proof.
  intros w. apply (unsuccessful_check_keeps_articles w sample_message sample_db).
  discriminate.
Defined.

(** X18: A response whose claims all lack a numeric score is still an
    assessment: the pass stores a null score, whatever score was
    recorded before. *)
Theorem unscorable_claims_clear_score fault_of article_id kid_summary pro_summary
    jargon_list data now db :
  default [] (Api.claims data) <> [] ->
  numeric_scores (claims (_process_response data)) = [] ->
  is_Some (Db.articles db !! article_id) ->
  (forall o, fault_of o = false) ->
  stored_score
    (_save_to_database fault_of article_id kid_summary pro_summary jargon_list
       (_process_response data) now db).1 article_id
  = None.
Proof.
  intros Hfound Hnone [row Hrow] Hok.
  rewrite (save_goes_through fault_of _ _ _ _ _ _ row db Hok Hrow). cbn [fst].
  rewrite stored_score_committed by exact Hrow.
  pose proof (_process_response_shape data) as Hshape.
  destruct (default [] (Api.claims data)); [congruence|].
  destruct Hshape as (_ & _ & ->).
  destruct (_process_response_unfold data) as [_ Hscore]. cbv zeta in Hscore.
  rewrite Hscore, Hnone. reflexivity.
Qed.

Lemma unscorable_claims_clear_score_witness :
  let scored := {| Db.articles :=
                     {[ "a1" := {| Db.title := "t"; Db.content := "c";
                                   Db.veracity_score := Some 100;
                                   Db.fact_check_claims := [] |} ]};
                   Db.article_summaries := []; Db.article_jargon := [] |} in
  let data := {| Api.claims :=
                   Some [ {| Api.text := None; Api.claimant := None;
                             Api.claimReview :=
                               [ {| Api.textualRating := Some "Unrated";
                                    Api.publisher_of := None; Api.url := None |} ] |} ] |} in
  stored_score scored "a1" = Some 100 /\
  stored_score
    (_save_to_database no_faults "a1" None None [] (_process_response data) 7 scored).1 "a1"
  = None.
Proof.
  intros scored data. split; [reflexivity|].
  apply (unscorable_claims_clear_score no_faults "a1" None None [] data 7 scored).
  - discriminate.
  - reflexivity.
  - eexists. reflexivity.
  - intros o. reflexivity.
Defined.

(** X19: The loop handles the messages one after the other, each from the
    database the one before left: a stretch of messages met while
    running, followed by more, is the first stretch and then the
    rest. *)
Theorem consume_in_sequence first_ones later db :
  Forall (fun d => running d = true) first_ones ->
  consume (first_ones ++ later) db
  = let '(db1, actions1) := consume first_ones db in
    let '(db2, actions2) := consume later db1 in
    (db2, actions1 ++ actions2).
Proof.
  intros Hrunning. revert db.
  induction Hrunning as [|d first_ones Hd _ IH]; intros db.
  - cbn. destruct (consume later db). reflexivity.
  - cbn [consume app]. rewrite Hd. cbn [negb].
    rewrite IH.
    destruct (consume first_ones _) as [db1 actions1].
    destruct (consume later db1) as [db2 actions2].
    rewrite app_assoc. reflexivity.
Qed.

Lemma consume_in_sequence_witness :
  let d := {| message := sample_message; running := true;
              around := sample_world no_faults |} in
  consume ([d] ++ [d]) sample_db
  = let '(db1, actions1) := consume [d] sample_db in
    let '(db2, actions2) := consume [d] db1 in
    (db2, actions1 ++ actions2).
Proof.
  intros d. apply (consume_in_sequence [d] [d] sample_db).
  repeat constructor.
Defined.

(** X20: Once a message is met with the running flag down, the loop ends:
    that message and all later ones are left unprocessed, while every
    message before it was processed to the end. *)
Theorem consume_stops_at_flag first_ones d later db :
  Forall (fun d => running d = true) first_ones ->
  running d = false ->
  consume (first_ones ++ d :: later) db = consume first_ones db.
Proof.
  intros Hrunning Hstop. revert db.
  induction Hrunning as [|d' first_ones Hd' _ IH]; intros db.
  - cbn. rewrite Hstop. reflexivity.
  - cbn [consume app]. rewrite Hd'. cbn [negb]. rewrite IH. reflexivity.
Qed.

Lemma consume_stops_at_flag_witness :
  let d := {| message := sample_message; running := true;
              around := sample_world no_faults |} in
  let stop := {| message := sample_message; running := false;
                 around := sample_world commit_fails |} in
  consume ([d] ++ stop :: [d; d]) sample_db = consume [d] sample_db.
Proof.
  intros d stop. apply (consume_stops_at_flag [d] stop [d; d] sample_db).
  - repeat constructor.
  - reflexivity.
Defined.

(** * Properties of the Gemini service *)

Import PyText.

Lemma append_cons c (a b : string) : String c a +:+ b = String c (a +:+ b).
Proof. reflexivity. Qed.

Lemma append_nil_l (b : string) : "" +:+ b = b.
Proof. reflexivity. Qed.

Lemma append_assoc_str (a b c : string) : (a +:+ b) +:+ c = a +:+ (b +:+ c).
Proof.
  induction a as [|x a IH]; [reflexivity|].
  rewrite !append_cons, IH. reflexivity.
Qed.

Lemma lstrip_blank_app lead s : blank lead = true -> lstrip (lead +:+ s) = lstrip s.
Proof.
  induction lead as [|c lead IH]; [reflexivity|].
  cbn [blank]. intros Hblank. apply andb_true_iff in Hblank as [Hc Hblank].
  rewrite append_cons. cbn [lstrip]. rewrite Hc. apply IH, Hblank.
Qed.

Lemma lstrip_blank s : blank s = true -> lstrip s = "".
Proof.
  induction s as [|c s IH]; [reflexivity|].
  cbn [blank lstrip]. intros Hblank. apply andb_true_iff in Hblank as [-> Hblank].
  apply IH, Hblank.
Qed.

Lemma rstrip_blank trail : blank trail = true -> rstrip trail = "".
Proof.
  induction trail as [|c trail IH]; [reflexivity|].
  cbn [blank rstrip]. intros Hblank. apply andb_true_iff in Hblank as [-> Hblank].
  rewrite IH by exact Hblank. reflexivity.
Qed.

Lemma rstrip_keeps s d trail :
  is_space d = false -> blank trail = true ->
  rstrip (s +:+ String d trail) = s +:+ String d "".
Proof.
  intros Hd Hblank. induction s as [|c s IH].
  - rewrite !append_nil_l. cbn [rstrip]. rewrite rstrip_blank by exact Hblank.
    rewrite Hd. reflexivity.
  - rewrite !append_cons. cbn [rstrip]. rewrite IH.
    destruct s; reflexivity.
Qed.

(** Stripping removes the whitespace around a text that begins and ends
    with something else. *)
Lemma strip_around lead c middle d trail :
  blank lead = true -> blank trail = true ->
  is_space c = false -> is_space d = false ->
  strip (lead +:+ String c (middle +:+ String d trail)) = String c (middle +:+ String d "").
Proof.
  intros Hlead Htrail Hc Hd. unfold strip.
  rewrite lstrip_blank_app by exact Hlead. cbn [lstrip]. rewrite Hc.
  apply (rstrip_keeps (String c middle) d trail Hd Htrail).
Qed.

Lemma strip_blank s : blank s = true -> strip s = "".
Proof. intros Hblank. unfold strip. rewrite lstrip_blank by exact Hblank. reflexivity. Qed.

Lemma after_first_app sep a b :
  after_first sep a = None -> after_first sep (a +:+ String sep b) = Some b.
Proof.
  induction a as [|c a IH].
  - intros _. rewrite append_nil_l. cbn [after_first]. rewrite decide_True by reflexivity.
    reflexivity.
  - rewrite append_cons. cbn [after_first]. destruct (decide (c = sep)); [discriminate|].
    exact IH.
Qed.

Lemma endswith_app suffix a : endswith suffix (a +:+ suffix) = true.
Proof.
  induction a as [|c a IH].
  - rewrite append_nil_l. destruct suffix; cbn [endswith];
      rewrite bool_decide_eq_true_2 by reflexivity; reflexivity.
  - rewrite append_cons. cbn [endswith]. rewrite IH. apply orb_true_r.
Qed.

Lemma before_last_fence body :
  before_last Gemini.fence (body +:+ Gemini.fence) = Some body.
Proof.
  induction body as [|c body IH]; [reflexivity|].
  rewrite append_cons. cbn [before_last]. rewrite IH. reflexivity.
Qed.

(** The clean-up of an answer wrapped in a fence, with a tag after the
    opening fence and whitespace around. *)
Lemma unfenced_fenced lead tag body trail :
  blank lead = true -> blank trail = true -> after_first newline tag = None ->
  Gemini.unfenced
    (lead +:+ Gemini.fence +:+ tag +:+ String newline body +:+ Gemini.fence +:+ trail)
  = Some body.
Proof.
  intros Hlead Htrail Htag. unfold Gemini.unfenced.
  set (middle := "``" +:+ tag +:+ String newline body +:+ "``").
  assert (lead +:+ Gemini.fence +:+ tag +:+ String newline body +:+ Gemini.fence +:+ trail
          = lead +:+ String "`" (middle +:+ String "`" trail)) as ->.
  { unfold middle, Gemini.fence. f_equal.
    change ("```" +:+ ?x) with (String "`" ("``" +:+ x)). f_equal.
    repeat (rewrite append_assoc_str || rewrite append_cons). reflexivity. }
  rewrite strip_around by (assumption || reflexivity).
  assert (String "`" (middle +:+ "`")
          = (Gemini.fence +:+ tag) +:+ String newline (body +:+ Gemini.fence)) as ->.
  { unfold middle, Gemini.fence.
    change ("```" +:+ tag) with (String "`" ("``" +:+ tag)).
    rewrite append_cons. f_equal.
    repeat (rewrite append_assoc_str || rewrite append_cons). reflexivity. }
  assert (startswith Gemini.fence
            ((Gemini.fence +:+ tag) +:+ String newline (body +:+ Gemini.fence)) = true) as ->
    by reflexivity.
  rewrite after_first_app by exact Htag.
  rewrite endswith_app. unfold rsplit_head. rewrite before_last_fence. reflexivity.
Qed.

(** X23: An answer wrapped in a fence, with or without a tag after the
    opening fence and whitespace around it, is decoded from exactly
    what stands between the first line and the closing fence; what
    cannot be decoded counts as the empty array. *)
Theorem fenced_answer_unwrapped generate loads content lead tag body trail :
  blank lead = true -> blank trail = true -> after_first newline tag = None ->
  generate (Gemini.jargon_prompt content)
  = Returned (lead +:+ Gemini.fence +:+ tag +:+ String newline body
              +:+ Gemini.fence +:+ trail) ->
  Gemini.extract_jargon generate loads content
  = Returned (default (JArr []) (loads body)).
Proof.
  intros Hlead Htrail Htag Hanswer. unfold Gemini.extract_jargon.
  rewrite Hanswer, (unfenced_fenced lead tag body trail Hlead Htrail Htag).
  destruct (loads body); reflexivity.
Qed.

Lemma fenced_answer_unwrapped_witness :
  let answer := " " +:+ Gemini.fence +:+ "json" +:+ String newline "[]"
                +:+ Gemini.fence +:+ String newline "" in
  Gemini.extract_jargon (fun _ => Returned answer)
    (fun text => if decide (text = "[]") then Some (JArr []) else None) "content"
  = Returned (JArr []).
Proof.
  intros answer.
  exact (fenced_answer_unwrapped (fun _ => Returned answer)
           (fun text => if decide (text = "[]") then Some (JArr []) else None)
           "content" " " "json" "[]" (String newline "")
           eq_refl eq_refl eq_refl eq_refl).
Defined.

(** X24: An answer that opens with a fence and has no line break makes
    [extract_jargon] raise, the index of the second line being out of
    range; the consumer's wrapper turns that into no terms. *)
Theorem fence_without_newline_raises w generate loads content answer :
  gemini_service w = gemini_service_of generate loads ->
  generate (Gemini.jargon_prompt content) = Returned answer ->
  startswith Gemini.fence (strip answer) = true ->
  after_first newline (strip answer) = None ->
  Gemini.extract_jargon generate loads content
  = Raised (Exception "list index out of range") /\
  _extract_jargon w content = Returned [].
Proof.
  intros Hservice Hanswer Hfence Hline.
  assert (Gemini.extract_jargon generate loads content
          = Raised (Exception "list index out of range")) as Hraised.
  { unfold Gemini.extract_jargon, Gemini.unfenced. rewrite Hanswer, Hfence, Hline.
    reflexivity. }
  split; [exact Hraised|].
  unfold _extract_jargon. rewrite Hservice. cbn [extract_jargon gemini_service_of].
  rewrite Hraised. reflexivity.
Qed.

Lemma fence_without_newline_raises_witness :
  let generate := fun _ : string => Returned (A := string) "```[]```" in
  let loads := fun _ : string => Some (JArr []) in
  Gemini.extract_jargon generate loads "content"
  = Raised (Exception "list index out of range") /\
  _extract_jargon
    {| gemini_service := gemini_service_of generate loads; api_key := None;
       remote := one_false_claim; faults := no_faults; utcnow := 0 |} "content"
  = Returned [].
Proof.
  intros generate loads.
  exact (fence_without_newline_raises
           {| gemini_service := gemini_service_of generate loads; api_key := None;
              remote := one_false_claim; faults := no_faults; utcnow := 0 |}
           generate loads "content" "```[]```" eq_refl eq_refl eq_refl eq_refl).
Defined.

(** X25: When the answer of the model, cleaned up, cannot be decoded, the
    message is processed without a term: the jargon table is the same
    afterwards. *)
Theorem undecodable_answer_keeps_jargon w generate loads article_data db answer text :
  gemini_service w = gemini_service_of generate loads ->
  generate (Gemini.jargon_prompt (default "" (Msg.content article_data))) = Returned answer ->
  Gemini.unfenced answer = Some text ->
  loads text = None ->
  Db.article_jargon (db_after (process_article w article_data db)) = Db.article_jargon db.
Proof.
  intros Hservice Hanswer Htext Hloads. apply no_items_keep_jargon.
  unfold jargon_result. rewrite Hservice. cbn [extract_jargon gemini_service_of].
  unfold Gemini.extract_jargon. rewrite Hanswer, Htext, Hloads. reflexivity.
Qed.

Lemma undecodable_answer_keeps_jargon_witness :
  let generate := fun _ : string => Returned (A := string) "Sorry, no terms." in
  let loads := fun _ : string => None (A := json) in
  let w := {| gemini_service := gemini_service_of generate loads; api_key := None;
              remote := one_false_claim; faults := no_faults; utcnow := 0 |} in
  Db.article_jargon (db_after (process_article w sample_message sample_db))
  = Db.article_jargon sample_db.
Proof.
  intros generate loads w.
  exact (undecodable_answer_keeps_jargon w generate loads sample_message sample_db
           "Sorry, no terms." "Sorry, no terms." eq_refl eq_refl eq_refl eq_refl).
Defined.

(** X26: When the model answers a summary prompt with whitespace only, the
    summary comes back empty and nothing is stored for that mode: the
    rows of the mode are the same after the message, for every
    article. *)
Theorem blank_summary_stores_nothing w generate loads article_data db mode answer :
  gemini_service w = gemini_service_of generate loads ->
  mode = "kid" \/ mode = "pro" ->
  generate (Gemini.summary_prompt (default "" (Msg.content article_data)) mode)
  = Returned answer ->
  blank answer = true ->
  forall a, summary_rows (db_after (process_article w article_data db)) a mode
            = summary_rows db a mode.
Proof.
  intros Hservice Hmode Hanswer Hblank a.
  destruct (process_article_cases w article_data db)
    as [Hdrop|(article_id & content & Hid & Hidt & Hcontent & Hcontentt)].
  { rewrite Hdrop. reflexivity. }
  rewrite Hcontent in Hanswer. change (default "" (Some content)) with content in Hanswer.
  assert (summary_result w content mode = Some "") as Hresult.
  { unfold summary_result. rewrite Hservice. cbn [generate_summary gemini_service_of].
    unfold Gemini.generate_summary. rewrite Hanswer, strip_blank by exact Hblank.
    reflexivity. }
  destruct (process_article_valid w article_data db article_id content
              Hid Hidt Hcontent Hcontentt) as [Hpass _].
  cbv zeta in Hpass. apply (f_equal fst) in Hpass. cbn [fst] in Hpass. rewrite Hpass.
  match goal with |- summary_rows (?call).1 _ _ = _ =>
    match call with
    | _save_to_database ?f ?i ?k ?p ?j ?v ?n ?d =>
        destruct (save_cases f i k p j v n d)
          as [[Hsave _]|[[Hsave _]|(row & Hsave & _)]]; cbv zeta in Hsave;
          rewrite Hsave; cbn [fst]; try reflexivity
    end
  end.
  match goal with |- summary_rows (committed ?i ?k ?p ?j ?v ?n ?r ?d) _ _ = _ =>
    destruct (committed_summary_rows i k p j v n r d) as (Hkid & Hpro & Hother)
  end.
  destruct (decide (a = article_id)) as [->|Ha].
  - destruct Hmode as [-> | ->].
    + rewrite Hkid, Hresult. reflexivity.
    + rewrite Hpro, Hresult. reflexivity.
  - apply Hother; congruence.
Qed.

Lemma blank_summary_stores_nothing_witness :
  let generate := fun _ : string => Returned (A := string) (String newline " ") in
  let loads := fun _ : string => None (A := json) in
  let w := {| gemini_service := gemini_service_of generate loads; api_key := None;
              remote := one_false_claim; faults := no_faults; utcnow := 0 |} in
  summary_rows (db_after (process_article w sample_message sample_db)) "a1" "kid"
  = summary_rows sample_db "a1" "kid".
Proof.
  intros generate loads w.
  exact (blank_summary_stores_nothing w generate loads sample_message sample_db "kid"
           (String newline " ") eq_refl (or_introl eq_refl) eq_refl eq_refl "a1").
Defined.

(** * Invariants of the loop *)

Lemma process_article_keeps_articles w article_data db :
  let db' := db_after (process_article w article_data db) in
  dom (Db.articles db') = dom (Db.articles db) /\
  (forall a, Db.title <$> Db.articles db' !! a = Db.title <$> Db.articles db !! a) /\
  (forall a, Db.content <$> Db.articles db' !! a = Db.content <$> Db.articles db !! a).
Proof.
  intros db'. subst db'.
  destruct (process_article_cases w article_data db)
    as [Hdrop|(article_id & content & Hid & Hidt & Hcontent & Hcontentt)].
  { rewrite Hdrop. cbn. auto. }
  destruct (process_article_valid w article_data db article_id content
              Hid Hidt Hcontent Hcontentt) as [Hpass _].
  cbv zeta in Hpass. apply (f_equal fst) in Hpass. cbn [fst] in Hpass. rewrite Hpass.
  match goal with |- context [(_save_to_database ?f ?i ?k ?p ?j ?v ?n ?d).1] =>
    destruct (save_frame f i k p j v n d) as (Hdom & Htitle & Hcontent' & _)
  end.
  auto.
Qed.

(** X21: However many messages the loop handles, and whatever they carry, it
    never creates or deletes an article, and never changes a title or a
    content. *)
Theorem consume_keeps_articles stream db :
  let db' := (consume stream db).1 in
  dom (Db.articles db') = dom (Db.articles db) /\
  (forall a, Db.title <$> Db.articles db' !! a = Db.title <$> Db.articles db !! a) /\
  (forall a, Db.content <$> Db.articles db' !! a = Db.content <$> Db.articles db !! a).
Proof.
  revert db. induction stream as [|d stream IH]; intros db; [cbn; auto|].
  cbn [consume]. destruct (running d); cbn [negb]; [|cbn; auto].
  destruct (process_article_keeps_articles (around d) (message d) db)
    as (Hdom & Htitle & Hcontent).
  specialize (IH (db_after (process_article (around d) (message d) db))).
  destruct (consume stream _) as [db' actions]. cbn [fst] in *.
  destruct IH as (Hdom' & Htitle' & Hcontent').
  split; [congruence|]. split; intros a; [rewrite Htitle'|rewrite Hcontent']; auto.
Qed.


